(** * Band-excitation loop model: chunked reshape, guess cascade and fit driver

    A shallow embedding of [pycroscopy/analysis/be_loop_model.py]
    (class [BELoopModel]) and the properties its specification states about
    it.  Arrays are kept the way numpy keeps a C-contiguous array: a shape and
    the elements in row-major order.  Python exceptions are an explicit
    [result] type; a method that warns and returns [None] returns normally,
    with its warnings and no value. *)

From Stdlib Require Import ZArith String.
From stdpp Require Import base tactics option numbers list strings.

Open Scope nat_scope.

(** ** Errors *)

Inductive exn : Type :=
| ValueError
| TypeError
| IndexError
| ZeroDivisionError
| OverflowError
| AttributeError
| UnboundLocalError.

Inductive result (A : Type) : Type :=
| Ok (a : A)
| Raise (e : exn).
Arguments Ok {A} a.
Arguments Raise {A} e.

#[global] Instance result_ret : MRet result := λ A a, Ok a.
#[global] Instance result_bind : MBind result := λ A B k r,
  match r with
  | Ok a => k a
  | Raise e => Raise e
  end.

(** ** N-dimensional arrays in C order *)

Record ndarray (A : Type) : Type := mk_ndarray {
  shape : list nat;
  data : list A
}.
Arguments mk_ndarray {A} shape data.
Arguments shape {A} _.
Arguments data {A} _.

(** [np.prod] of a shape. *)
Definition np_prod (shp : list nat) : nat := foldr Nat.mul 1 shp.

(** An array is well formed when its buffer holds one element per index. *)
Definition wf {A} (a : ndarray A) : Prop := length (data a) = np_prod (shape a).

(** Row-major offset of a multi-index, [np.ravel_multi_index]. *)
Fixpoint ravel (shp idx : list nat) : nat :=
  match shp, idx with
  | _ :: shp', i :: idx' => i * np_prod shp' + ravel shp' idx'
  | _, _ => 0
  end.

(** Multi-index of a row-major offset, [np.unravel_index]. *)
Fixpoint unravel (shp : list nat) (k : nat) : list nat :=
  match shp with
  | [] => []
  | _ :: shp' => k / np_prod shp' :: unravel shp' (k `mod` np_prod shp')
  end.

(** A multi-index within the extents of a shape. *)
Definition in_bounds (shp idx : list nat) : Prop :=
  Forall2 (λ s i, i < s) shp idx.

(** [take_axes axes l] is [[l[axes[0]]; l[axes[1]]; ...]]. *)
Definition take_axes (axes l : list nat) : list nat :=
  (λ t, nth t l 0) <$> axes.

(** Position of the first occurrence of [m]. *)
Fixpoint index_of (m : nat) (l : list nat) : nat :=
  match l with
  | [] => 0
  | x :: l' => if decide (x = m) then 0 else S (index_of m l')
  end.

(** [np.argsort] of a permutation: its inverse. *)
Definition np_argsort (axes : list nat) : list nat :=
  (λ m, index_of m axes) <$> seq 0 (length axes).

(** [l[idxs]] read through the flat buffer. *)
Definition gather {A} (l : list A) (f : nat → nat) (n : nat) : list A :=
  omap (λ k, l !! f k) (seq 0 n).

(** [np.reshape(a, newshape)]: the row-major element sequence is kept,
    and the element count must agree. *)
Definition np_reshape {A} (a : ndarray A) (newshape : list nat)
  : result (ndarray A) :=
  if decide (np_prod newshape = length (data a))
  then Ok (mk_ndarray newshape (data a))
  else Raise ValueError.

(** [np.reshape(a, (n0, -1))]: the second extent is inferred; numpy refuses
    to infer it when the known extent is zero. *)
Definition np_reshape_infer {A} (a : ndarray A) (n0 : nat)
  : result (ndarray A) :=
  if decide (n0 = 0) then Raise ValueError
  else if decide (length (data a) `mod` n0 = 0)
       then Ok (mk_ndarray [n0; length (data a) / n0] (data a))
       else Raise ValueError.

(** [np.transpose(a, axes)]: [axes] must be a permutation of
    [range(a.ndim)]; axis [t] of the result is axis [axes[t]] of [a]. *)
Definition np_transpose {A} (a : ndarray A) (axes : list nat)
  : result (ndarray A) :=
  if decide (axes ≡ₚ seq 0 (length (shape a)))
  then
    let shp' := take_axes axes (shape a) in
    let inv := np_argsort axes in
    Ok (mk_ndarray shp'
          (gather (data a)
                  (λ k, ravel (shape a) (take_axes inv (unravel shp' k)))
                  (np_prod shp')))
  else Raise ValueError.

(** [a.T] of a 2-D array. *)
Definition np_transpose2 {A} (a : ndarray A) : result (ndarray A) :=
  np_transpose a [1; 0].

(** ** ReshapeEngine: [_reshape_sho_matrix] and [_reshape_projected_loops_for_h5]

    The axis model of the current outer-cycle slice is the list [spec_dims]
    of the cardinalities of the spectroscopic axes (outer-cycle and repeat
    axes already sliced away) and [dc_offset_index], the N-D axis of the
    bias sweep: [1 + dc_ind], axis 0 being the positions. *)

Definition warn_reshape_raw : string :=
  "Error - could not reshape provided raw data chunk...".
Definition warn_reshape_loops : string :=
  "unable to reshape projected loops".

(** Modelled from the spec: [hdf_utils.reshape_to_Ndims] is not part of the
    source file.  It reinterprets the raw 2-D chunk [position x column] as
    the N-D tensor whose outermost axis is the position and whose remaining
    axes have the cardinalities of the axis model, and reports failure when
    the element count does not factor into that shape. *)
Definition reshape_to_Ndims {A} (raw_2d : ndarray A) (spec_dims : list nat)
  : ndarray A * bool :=
  match shape raw_2d with
  | [npos; _] =>
      match np_reshape raw_2d (npos :: spec_dims) with
      | Ok nd => (nd, true)
      | Raise _ => (raw_2d, false)
      end
  | _ => (raw_2d, false)
  end.

(** Modelled from the spec: [hdf_utils.reshape_from_Ndims] is not part of
    the source file.  It collapses an N-D tensor whose outermost axis is the
    position back to 2-D [position x spectroscopic-column]. *)
Definition reshape_from_Ndims {A} (nd : ndarray A) : ndarray A * bool :=
  match shape nd with
  | npos :: dims =>
      match np_reshape nd [npos; np_prod dims] with
      | Ok a2 => (a2, true)
      | Raise _ => (nd, false)
      end
  | [] => (nd, false)
  end.

(** [[d] + list(range(d)) + list(range(d + 1, ndim))] *)
Definition order_dc_outside_nd (d ndim : nat) : list nat :=
  [d] ++ seq 0 d ++ seq (d + 1) (ndim - (d + 1)).

(** [list(range(1, d + 1)) + [0] + list(range(d + 1, ndim))] *)
Definition order_dc_offset_reverse (d ndim : nat) : list nat :=
  seq 1 d ++ [0] ++ seq (d + 1) (ndim - (d + 1)).

(** A method that may [warn(msg)] and [return None]: the warnings issued
    and the returned value. *)
Definition warned (T : Type) : Type := (list string * option T)%type.

Definition _reshape_sho_matrix {A} (spec_dims : list nat)
    (dc_offset_index : nat) (raw_2d : ndarray A)
  : result (warned (ndarray A * list nat * list nat)) :=
  (* step 4: reshape to N dimensions *)
  let '(fit_nd, success) := reshape_to_Ndims raw_2d spec_dims in
  if negb success then Ok ([warn_reshape_raw], None)
  else
    (* step 5: move the voltage dimension to the first dim *)
    let ndim := length (shape fit_nd) in
    fit_nd2 ← np_transpose fit_nd (order_dc_outside_nd dc_offset_index ndim);
    (* step 6: reshape the ND data to 2D arrays *)
    loops_2d ← np_reshape_infer fit_nd2 (nth 0 (shape fit_nd2) 0);
    Ok ([], Some (loops_2d,
                  order_dc_offset_reverse dc_offset_index ndim,
                  shape fit_nd2)).

Definition _reshape_projected_loops_for_h5 {A}
    (projected_loops_2d : ndarray A) (order_reverse : list nat)
    (nd_mat_shape_dc_first : list nat)
  : result (warned (ndarray A)) :=
  (* step 9: reshape back to same shape as fit_nd2 *)
  projected_loops_nd ← np_reshape projected_loops_2d nd_mat_shape_dc_first;
  (* step 10: move Vdc back inwards *)
  projected_loops_nd_2 ← np_transpose projected_loops_nd order_reverse;
  (* step 11: reshape back to 2D *)
  let '(proj_loops_2d, success) := reshape_from_Ndims projected_loops_nd_2 in
  if negb success then Ok ([warn_reshape_loops], None)
  else Ok ([], Some proj_loops_2d).

(** The reshape at the head of the chunk loop of [do_guess]: with a single
    spectroscopic axis the chunk is only transposed; otherwise the triple
    returned by [_reshape_sho_matrix] is unpacked, which raises [TypeError]
    when that method returned [None]. *)
Definition do_guess_reshape {A} (n_sho_all_but_forc : nat)
    (spec_dims : list nat) (dc_offset_index : nat) (chunk : ndarray A)
  : result (list string * (ndarray A * list nat * list nat)) :=
  if decide (n_sho_all_but_forc = 1) then
    loops_2d ← np_transpose2 chunk;
    Ok ([], (loops_2d, [1; 0], shape loops_2d))
  else
    r ← _reshape_sho_matrix spec_dims dc_offset_index chunk;
    match r with
    | (w, Some t) => Ok (w, t)
    | (w, None) => Raise TypeError
    end.

(** ** ChunkPlanner: [_get_sho_chunk_sizes]

    What the method reads from the spectroscopic and position tables is
    gathered in [sho_tables].  The memory arithmetic is done by Python in
    double precision; it is modelled here over the integers, [int(a / b)]
    being truncation of the exact quotient, and the overhead 3.5 being
    7/2. *)

Record sho_tables : Type := {
  num_dc_steps : Z;       (* np.unique(_sho_spec_inds[_dc_spec_index, :]).size *)
  loop_dims : list Z;     (* get_dimensionality(_sho_spec_inds, all_spec_dims) *)
  dtype_len : Z;          (* len(h5_main.dtype) *)
  dtype_itemsize : Z;     (* h5_main.dtype[0].itemsize *)
  n_positions : Z;        (* _sho_pos_inds.shape[0] *)
  n_sho_spec_cols : Z;    (* _sho_spec_inds.shape[1] *)
  n_met_spec_cols : Z;    (* _met_spec_inds.shape[1] *)
  forc_axis : option Z;   (* distinct FORC indices when a FORC axis is labelled *)
  forc_repeat_axis : option Z;  (* same for FORC_repeat *)
  dc_ind : nat            (* row of DC_Offset among the spectroscopic labels *)
}.

Record chunk_sizes : Type := {
  max_pos : Z;
  sho_spec_inds_per_forc : Z;
  metrics_spec_inds_per_forc : Z;
  num_forcs : Z;
  num_forc_repeats : Z
}.

(** [np.product] of a list of integers. *)
Definition np_product (l : list Z) : Z := foldr Z.mul 1%Z l.

Definition size_per_forc (t : sho_tables) : Z :=
  (num_dc_steps t * np_product (loop_dims t) * dtype_len t * dtype_itemsize t)%Z.

(** [int(n / a / b)] on Python integers. *)
Definition int_div2 (n a b : Z) : result Z :=
  if decide (a = 0%Z ∨ b = 0%Z) then Raise ZeroDivisionError
  else Ok (Z.quot n (a * b)).

(** [_get_sho_chunk_sizes(max_mem_mb)]; [forcs0] and [repeats0] are the
    values of [_num_forcs] and [_num_forc_repeats] on entry. *)
Definition _get_sho_chunk_sizes (max_mem_mb : Z) (t : sho_tables)
    (forcs0 repeats0 : Z) : result chunk_sizes :=
  (* Step 1: FORC cycles and repeats *)
  let forcs := match forc_axis t with Some n => n | None => forcs0 end in
  let repeats :=
    match forc_axis t, forc_repeat_axis t with
    | Some _, Some n => n
    | _, _ => repeats0
    end in
  (* Step 2: positions that fit in memory; mem_overhead = 3.5 *)
  let size := size_per_forc t in
  max_pos_all ←
    (if decide (size = 0%Z)
     then (if decide (max_mem_mb = 0%Z) then Raise ValueError
           else Raise OverflowError)
     else Ok (Z.quot (2 * (max_mem_mb * 1024 ^ 2)) (7 * size)));
  per_forc_sho ← int_div2 (n_sho_spec_cols t) forcs repeats;
  per_forc_met ← int_div2 (n_met_spec_cols t) forcs repeats;
  Ok {| max_pos := Z.min (n_positions t) max_pos_all;
        sho_spec_inds_per_forc := per_forc_sho;
        metrics_spec_inds_per_forc := per_forc_met;
        num_forcs := forcs;
        num_forc_repeats := repeats |}.


(** ** Scalars

    The measured values are IEEE floats.  The properties below do not
    depend on their arithmetic, so the operations numpy applies to them
    are an interface. *)

Class FloatOps (V : Type) : Type := {
  vzero : V;
  vone : V;
  vadd : V → V → V;
  vsub : V → V → V;
  vmul : V → V → V;
  vabs : V → V;
  f32 : V → V            (* the cast made by a store into a float32 array *)
}.

(** [np.sum] of a vector, as a running sum from zero.  numpy adds the
    same terms pairwise; over exact numbers the order does not matter. *)
Definition np_sum `{FloatOps V} (l : list V) : V := foldl vadd vzero l.

(** [np.roll(v, shift)] of a 1-D array: element [i] moves to
    [(i + shift) mod len]. *)
Definition np_roll {A} (v : list A) (shift : Z) : list A :=
  match length v with
  | 0 => v
  | n => let m := Z.to_nat ((- shift) `mod` Z.of_nat n) in
         drop m v ++ take m v
  end.

(** [shift_vdc]: [shift_ind = int(-1 * len(vdc_vec) / 4)]. *)
Definition shift_vdc {A} (vdc_vec : list A) : Z * list A :=
  let shift_ind := Z.quot (-1 * Z.of_nat (length vdc_vec)) 4 in
  (shift_ind, np_roll vdc_vec shift_ind).

(** ** Guess and fit records: dtype [loop_fit32] *)

Record loop_fit32 (V : Type) : Type := mk_loop_fit32 {
  a_0 : V; a_1 : V; a_2 : V; a_3 : V; a_4 : V;
  b_0 : V; b_1 : V; b_2 : V; b_3 : V;
  R2_Criterion : V
}.
Arguments mk_loop_fit32 {V}.
Arguments a_0 {V} _.
Arguments a_1 {V} _.
Arguments a_2 {V} _.
Arguments a_3 {V} _.
Arguments a_4 {V} _.
Arguments b_0 {V} _.
Arguments b_1 {V} _.
Arguments b_2 {V} _.
Arguments b_3 {V} _.
Arguments R2_Criterion {V} _.

(** Modelled from the spec: [io_utils.compound_to_scalar] is not part of
    the source file.  A record of the compound layout
    {a0..a4, b0..b3, R2 Criterion} becomes the row of its ten field values,
    in field order. *)
Definition compound_to_scalar {V} (r : loop_fit32 V) : list V :=
  [a_0 r; a_1 r; a_2 r; a_3 r; a_4 r; b_0 r; b_1 r; b_2 r; b_3 r;
   R2_Criterion r].

(** Modelled from the spec: [io_utils.realToCompound] is not part of the
    source file.  A row of ten reals becomes one record of float32 fields,
    9 coefficients followed by the goodness-of-fit scalar. *)
Definition realToCompound `{FloatOps V} (row : list V) : result (loop_fit32 V) :=
  match f32 <$> row with
  | [x0; x1; x2; x3; x4; x5; x6; x7; x8; x9] =>
      Ok (mk_loop_fit32 x0 x1 x2 x3 x4 x5 x6 x7 x8 x9)
  | _ => Raise ValueError
  end.

(** ** GuessCascade: [_guess_loops] *)

(** [scipy.optimize.OptimizeResult]: solution [x] and residual vector
    [fun]. *)
Record OptimizeResult (V : Type) : Type := mk_opt { opt_x : list V; opt_fun : list V }.
Arguments mk_opt {V}.
Arguments opt_x {V} _.
Arguments opt_fun {V} _.

(** A node of [utils.tree.ClusterTree]: its index, its mean curve and its
    children. *)
#[local] Unset Elimination Schemes.
Inductive cluster_node (V : Type) : Type :=
| Node (name : nat) (value : list V) (children : list (cluster_node V)).
#[local] Set Elimination Schemes.
Arguments Node {V}.

Definition node_name {V} (t : cluster_node V) : nat :=
  match t with Node n _ _ => n end.
Definition node_value {V} (t : cluster_node V) : list V :=
  match t with Node _ v _ => v end.
Definition node_children {V} (t : cluster_node V) : list (cluster_node V) :=
  match t with Node _ _ cs => cs end.

Record ClusterTree (V : Type) : Type := mk_tree {
  nodes : list (cluster_node V);
  tree : cluster_node V
}.
Arguments mk_tree {V}.
Arguments nodes {V} _.
Arguments tree {V} _.

(** The numerical collaborators of the cascade. *)
Class GuessServices (V : Type) : Type := {
  (* KMeans(k).fit(loops): cluster_centers_ and labels_ *)
  KMeans_fit : nat → list (list V) → result (list (list V) * list nat);
  (* pdist, linkage(.., 'weighted'), normalisation, ClusterTree(..) *)
  build_cluster_tree : list (list V) → list nat → ClusterTree V;
  (* utils.be_loop.generate_guess(vdc, curve) *)
  generate_guess : list V → list V → list V;
  (* element [0] of utils.be_loop.fit_loop(vdc, curve, guess) *)
  fit_loop : list V → list V → list V → OptimizeResult V
}.

(** [max(2, int(num_loops ** 0.5))]: [int] truncates, and the double
    square root of a row count truncates to the integer square root. *)
Definition num_clusters (num_loops : nat) : nat := Nat.max 2 (Nat.sqrt num_loops).

(** The nearest integer to the square root: [k] while [n <= k*k + k]
    (that is [sqrt n < k + 1/2]), [k + 1] above. *)
Definition round_sqrt (n : nat) : nat :=
  let k := Nat.sqrt n in
  if decide (n ≤ k * k + k) then k else S k.


(** An entry of [loop_fit_results]: the placeholder put there by
    [list(np.arange(num_nodes))] or a fit. *)
Inductive fit_slot (V : Type) : Type :=
| Placeholder (n : nat)
| Fitted (r : OptimizeResult V).
Arguments Placeholder {V} n.
Arguments Fitted {V} r.

(** [a[i]] of a Python list or of the rows of an array. *)
Definition py_get {A} (l : list A) (i : nat) : result A :=
  match l !! i with
  | Some x => Ok x
  | None => Raise IndexError
  end.

(** [a[i] = x] of a Python list. *)
Definition py_set {A} (l : list A) (i : nat) (x : A) : result (list A) :=
  if decide (i < length l) then Ok (<[i := x]> l) else Raise IndexError.

(** [guess_mat[i] = x] for a float32 matrix with rows of 9: the values are
    cast, a single value is broadcast, any other length is refused. *)
Definition row_assign `{FloatOps V} (m : list (list V)) (i : nat) (x : list V)
  : result (list (list V)) :=
  if decide (length x = 9) then py_set m i (f32 <$> x)
  else match x with
       | [x0] => py_set m i (replicate 9 (f32 x0))
       | _ => if decide (i < length m) then Raise ValueError else Raise IndexError
       end.

Section GuessCascade.
Context {V : Type} `{FloatOps V} `{GuessServices V}.

(** The matrices threaded through [_loop_fit_tree], with the record of the
    solver calls made so far: which node was fitted from which guess. *)
Definition fit_state : Type :=
  (list (list V) * list (fit_slot V) * list (nat * list V))%type.

Fixpoint _loop_fit_tree (vdc_shifted : list V) (shift_ind : Z)
    (t : cluster_node V) (st : fit_state) : result fit_state :=
  let '(guess_mat, fit_results, calls) := st in
  match t with
  | Node name value children =>
      (* I already have a guess. Now fit myself *)
      guess ← py_get guess_mat name;
      let curr_fit_results := fit_loop vdc_shifted (np_roll value shift_ind) guess in
      (* keep all the fit results *)
      fit_results ← py_set fit_results name (Fitted curr_fit_results);
      (fix for_children (cs : list (cluster_node V)) (st : fit_state)
         : result fit_state :=
         match cs with
         | [] => Ok st
         | child :: cs' =>
             let '(guess_mat, fit_results, calls) := st in
             (* Use my fit as a guess for the lower layers *)
             guess_mat ← row_assign guess_mat (node_name child)
                           (opt_x curr_fit_results);
             (* Fit this child *)
             st' ← _loop_fit_tree vdc_shifted shift_ind child
                     (guess_mat, fit_results, calls);
             for_children cs' st'
         end) children (guess_mat, fit_results, calls ++ [(name, guess)])
  end.

(** The walk as the specification words it: a node is fitted from its
    seed, and every child is then walked with the coefficients of that fit
    (as a float32 row) as its seed, depth first. *)
Fixpoint seeded_walk (vdc_shifted : list V) (shift_ind : Z)
    (t : cluster_node V) (seed : list V) : list (nat * list V) :=
  match t with
  | Node name value children =>
      let fit := fit_loop vdc_shifted (np_roll value shift_ind) seed in
      (name, seed) ::
      concat ((λ child, seeded_walk vdc_shifted shift_ind child
                          (f32 <$> opt_x fit)) <$> children)
  end.

(** The fits of the walk, in the order they are made. *)
Fixpoint walk_fits (vdc_shifted : list V) (shift_ind : Z)
    (t : cluster_node V) (seed : list V) : list (nat * OptimizeResult V) :=
  match t with
  | Node name value children =>
      let fit := fit_loop vdc_shifted (np_roll value shift_ind) seed in
      (name, fit) ::
      concat ((λ child, walk_fits vdc_shifted shift_ind child
                          (f32 <$> opt_x fit)) <$> children)
  end.

(** [fit_results[name] = fit] for each fit of a list, in order. *)
Definition store_fits (fit_results : list (fit_slot V))
    (fits : list (nat * OptimizeResult V)) : list (fit_slot V) :=
  foldl (λ fr nf, <[nf.1 := Fitted nf.2]> fr) fit_results fits.

(** Node names in depth-first order. *)
Fixpoint tree_names (t : cluster_node V) : list nat :=
  match t with
  | Node name _ children => name :: concat (tree_names <$> children)
  end.

(** [in_tree u t]: [u] is [t] or one of its descendants. *)
Inductive in_tree (u : cluster_node V) : cluster_node V → Prop :=
| in_tree_here : in_tree u u
| in_tree_child n v cs c : c ∈ cs → in_tree u c → in_tree u (Node n v cs).

(** Indices [i] with [labels[i] == c], [np.where(labels == c)[0]]. *)
Fixpoint where_from (i : nat) (labels : list nat) (c : nat) : list nat :=
  match labels with
  | [] => []
  | l :: ls => if decide (l = c) then i :: where_from (S i) ls c
               else where_from (S i) ls c
  end.
Definition np_where_eq (labels : list nat) (c : nat) : list nat :=
  where_from 0 labels c.

(** [arr[pix_inds] = v] *)
Definition index_assign {A} (arr : list A) (pix_inds : list nat) (v : A)
  : result (list A) :=
  if decide (Forall (λ i, i < length arr) pix_inds)
  then Ok (foldr (λ i a, <[i := v]> a) arr pix_inds)
  else Raise IndexError.

(** [1 - np.sum(np.abs(fun ** 2))] *)
Definition r2_criterion (res : OptimizeResult V) : V :=
  vsub vone (np_sum ((λ r, vabs (vmul r r)) <$> opt_fun res)).

(** The record given to the pixels of one cluster. *)
Definition cluster_record (res : OptimizeResult V) : result (loop_fit32 V) :=
  realToCompound (opt_x res ++ [r2_criterion res]).

(** [loop_fit_results[clust_id][0]] *)
Definition cluster_fit (fit_results : list (fit_slot V)) (clust_id : nat)
  : result (OptimizeResult V) :=
  slot ← py_get fit_results clust_id;
  match slot with
  | Fitted res => Ok res
  | Placeholder _ => Raise IndexError
  end.

(** The loop over [range(num_clusters)] that prepares the guess of each
    pixel from the fit of the cluster it belongs to. *)
Fixpoint assign_guesses (labels : list nat) (fit_results : list (fit_slot V))
    (clust_ids : list nat) (guess_parms : list (loop_fit32 V))
  : result (list (loop_fit32 V)) :=
  match clust_ids with
  | [] => Ok guess_parms
  | clust_id :: rest =>
      let pix_inds := np_where_eq labels clust_id in
      res ← cluster_fit fit_results clust_id;
      rec ← cluster_record res;
      guess_parms ← index_assign guess_parms pix_inds rec;
      assign_guesses labels fit_results rest guess_parms
  end.

Definition zero_record : loop_fit32 V :=
  let z := f32 vzero in mk_loop_fit32 z z z z z z z z z z.

Definition _guess_loops (vdc_vec : list V) (projected_loops_2d : list (list V))
  : result (list (loop_fit32 V)) :=
  let k := num_clusters (length projected_loops_2d) in
  '(centroids, labels) ← KMeans_fit k projected_loops_2d;
  let cluster_tree := build_cluster_tree centroids labels in
  let num_nodes := length (nodes cluster_tree) in
  (* prepare the guess and fit matrices *)
  let loop_guess_mat := replicate num_nodes (replicate 9 (f32 vzero)) in
  let loop_fit_results := Placeholder <$> seq 0 num_nodes in
  let '(shift_ind, vdc_shifted) := shift_vdc vdc_vec in
  (* guess the top (or last) node *)
  loop_guess_mat ← row_assign loop_guess_mat (num_nodes - 1)
                     (generate_guess vdc_vec (node_value (tree cluster_tree)));
  (* now guess the rest of the tree *)
  '(_, loop_fit_results, _) ←
    _loop_fit_tree vdc_shifted shift_ind (tree cluster_tree)
      (loop_guess_mat, loop_fit_results, []);
  (* prepare guesses for each pixel using the fit of its cluster *)
  assign_guesses labels loop_fit_results (seq 0 k)
    (replicate (length projected_loops_2d) zero_record).

End GuessCascade.

(** ** Stored tables

    A dataset of the file is a 2-D array [position x column]. *)

Definition nrows {A} (a : ndarray A) : nat := nth 0 (shape a) 0.
Definition ncols {A} (a : ndarray A) : nat := nth 1 (shape a) 0.

Definition rows_of {A} (a : ndarray A) : list (list A) :=
  (λ r, take (ncols a) (drop (r * ncols a) (data a))) <$> seq 0 (nrows a).

Definition of_rows {A} (rs : list (list A)) (nc : nat) : ndarray A :=
  mk_ndarray [length rs; nc] (concat rs).

(** [ds[r0:r1, c0:c1]] for bounds that are not negative; a bound past the
    end is clipped. *)
Definition h5_slice {A} (ds : ndarray A) (r0 r1 c0 c1 : Z) : ndarray A :=
  let rs := take (Z.to_nat r1 - Z.to_nat r0) (drop (Z.to_nat r0) (rows_of ds)) in
  let cut (row : list A) :=
    take (Z.to_nat c1 - Z.to_nat c0) (drop (Z.to_nat c0) row) in
  of_rows (cut <$> rs)
          (Nat.min (Z.to_nat c1) (ncols ds) - Nat.min (Z.to_nat c0) (ncols ds)).

(** [np.roll(a, shift, axis=0)] of a 2-D array. *)
Definition np_roll_rows {A} (a : ndarray A) (shift : Z) : ndarray A :=
  of_rows (np_roll (rows_of a) shift) (ncols a).

(** [np.hstack] of 2-D arrays with the same number of rows. *)
Fixpoint np_hstack {A} (nr : nat) (parts : list (ndarray A)) : result (ndarray A) :=
  match parts with
  | [] => Ok (of_rows (replicate nr []) 0)
  | a :: parts' =>
      if decide (length (shape a) = 2 ∧ nrows a = nr) then
        rest ← np_hstack nr parts';
        Ok (of_rows (zip_with app (rows_of a) (rows_of rest))
                    (ncols a + ncols rest))
      else Raise ValueError
  end.

(** ** FitDriver: [do_fit] and [_get_guess_chunk] *)

Definition msg_need_guess : string :=
  String.append "You need to guess before fitting"
                (String (Ascii.ascii_of_nat 10) EmptyString).
Definition warn_no_solver : string :=
  "Error: Solver does not exist!. For additional info see scipy.optimize".
Definition warn_no_obj_func : string :=
  "Error: Objective Functions is not implemented in pycroscopy.analysis.Fit_Methods".
Definition warn_reshape_results : string :=
  "unable to reshape ND results back to 2D".

Inductive message : Type :=
| Printed (s : string)
| Warned (s : string).

(** The numerical collaborators of the fit phase; [S] is the compound
    type [switching32] of the switching parameters. *)
Class FitServices (V S : Type) : Type := {
  (* LoopOptimize(data, guess).computeFit(.., obj_func={.., 'xvals': xvals}) *)
  computeFit : ndarray V → list (list V) → list V → list (OptimizeResult V);
  (* utils.be_loop.calc_switching_coef_vec(loop_coef_vec, nuc_threshold) *)
  calc_switching_coef_vec : list (list V) → V → list S;
  (* the default nuc_threshold, 0.03 *)
  default_nuc_threshold : V
}.

(** A guess dataset handed to [do_fit], with the datasets of its group. *)
Record guess_group (V : Type) : Type := mk_guess_group {
  grp_guess : ndarray (loop_fit32 V);
  grp_projected_loops : ndarray V
}.
Arguments mk_guess_group {V}.
Arguments grp_guess {V} _.
Arguments grp_projected_loops {V} _.

(** The chunk cursor: the attributes [_get_guess_chunk] moves. *)
Record chunk_cursor (V : Type) : Type := mk_cursor {
  _start_pos : Z;
  _end_pos : Z;
  _current_forc : Z;
  _current_sho_spec_slice : Z * Z;
  _current_met_spec_slice : Z * Z;
  dc_vec : list V;
  chunk_data : option (ndarray V);      (* self.data *)
  chunk_guess : list (list V)           (* self.guess *)
}.
Arguments mk_cursor {V}.
Arguments _start_pos {V} _.
Arguments _end_pos {V} _.
Arguments _current_forc {V} _.
Arguments _current_sho_spec_slice {V} _.
Arguments _current_met_spec_slice {V} _.
Arguments dc_vec {V} _.
Arguments chunk_data {V} _.
Arguments chunk_guess {V} _.

(** One call of the solver: the loops, the guesses and the bias vector it
    was given. *)
Record fit_call (V : Type) : Type := mk_call {
  call_data : ndarray V;
  call_guess : list (list V);
  call_xvals : list V
}.
Arguments mk_call {V}.
Arguments call_data {V} _.
Arguments call_guess {V} _.
Arguments call_xvals {V} _.

(** The attributes of a [BELoopModel] that [do_fit] reads or writes, with
    what it printed and the solver calls it made. *)
Record BELoopModel (V S : Type) : Type := mk_model {
  _maxCpus : Z;
  _maxMemoryMB : Z;
  _maxDataChunk : Z;
  tables : sho_tables;
  spec_dims : list nat;       (* axes of _sho_spec_inds[_sho_all_but_forc_inds] *)
  n_met_all_but_forc : nat;   (* len(_met_all_but_forc_inds) *)
  dc_offset_of_forc : Z → list V;   (* what _get_dc_offset reads for a FORC *)
  _dc_offset_index : nat;
  sizes : chunk_sizes;
  h5_projected_loops : ndarray V;
  h5_guess : option (ndarray (loop_fit32 V));
  h5_fit : option (ndarray (loop_fit32 V));
  h5_fit_parameters : option (ndarray S);
  cursor : chunk_cursor V;
  fit : option (ndarray (loop_fit32 V));
  log : list message;
  fit_calls : list (fit_call V)
}.
Arguments mk_model {V S}.
Arguments _maxCpus {V S} _.
Arguments _maxMemoryMB {V S} _.
Arguments _maxDataChunk {V S} _.
Arguments tables {V S} _.
Arguments spec_dims {V S} _.
Arguments n_met_all_but_forc {V S} _.
Arguments dc_offset_of_forc {V S} _.
Arguments _dc_offset_index {V S} _.
Arguments sizes {V S} _.
Arguments h5_projected_loops {V S} _.
Arguments h5_guess {V S} _.
Arguments h5_fit {V S} _.
Arguments h5_fit_parameters {V S} _.
Arguments cursor {V S} _.
Arguments fit {V S} _.
Arguments log {V S} _.
Arguments fit_calls {V S} _.

Section FitDriver.
Context {V S : Type} `{FloatOps V} `{FitServices V S}.
Abbreviation model := (BELoopModel V S).
Abbreviation fit_table := (ndarray (loop_fit32 V)).

Definition set_maxDataChunk (x : Z) (m : model) : model :=
  mk_model (_maxCpus m) (_maxMemoryMB m) x (tables m) (spec_dims m)
    (n_met_all_but_forc m) (dc_offset_of_forc m) (_dc_offset_index m)
    (sizes m) (h5_projected_loops m) (h5_guess m) (h5_fit m)
    (h5_fit_parameters m) (cursor m) (fit m) (log m) (fit_calls m).

Definition set_guess_group (d : nat) (g : guess_group V) (m : model) : model :=
  mk_model (_maxCpus m) (_maxMemoryMB m) (_maxDataChunk m) (tables m)
    (spec_dims m) (n_met_all_but_forc m) (dc_offset_of_forc m) d
    (sizes m) (grp_projected_loops g) (Some (grp_guess g)) (h5_fit m)
    (h5_fit_parameters m) (cursor m) (fit m) (log m) (fit_calls m).

Definition set_sizes (x : chunk_sizes) (m : model) : model :=
  mk_model (_maxCpus m) (_maxMemoryMB m) (_maxDataChunk m) (tables m)
    (spec_dims m) (n_met_all_but_forc m) (dc_offset_of_forc m)
    (_dc_offset_index m) x (h5_projected_loops m) (h5_guess m) (h5_fit m)
    (h5_fit_parameters m) (cursor m) (fit m) (log m) (fit_calls m).

Definition set_h5_fit (x : option fit_table) (m : model) : model :=
  mk_model (_maxCpus m) (_maxMemoryMB m) (_maxDataChunk m) (tables m)
    (spec_dims m) (n_met_all_but_forc m) (dc_offset_of_forc m)
    (_dc_offset_index m) (sizes m) (h5_projected_loops m) (h5_guess m) x
    (h5_fit_parameters m) (cursor m) (fit m) (log m) (fit_calls m).

Definition set_h5_fit_parameters (x : option (ndarray S)) (m : model) : model :=
  mk_model (_maxCpus m) (_maxMemoryMB m) (_maxDataChunk m) (tables m)
    (spec_dims m) (n_met_all_but_forc m) (dc_offset_of_forc m)
    (_dc_offset_index m) (sizes m) (h5_projected_loops m) (h5_guess m)
    (h5_fit m) x (cursor m) (fit m) (log m) (fit_calls m).

Definition set_cursor (x : chunk_cursor V) (m : model) : model :=
  mk_model (_maxCpus m) (_maxMemoryMB m) (_maxDataChunk m) (tables m)
    (spec_dims m) (n_met_all_but_forc m) (dc_offset_of_forc m)
    (_dc_offset_index m) (sizes m) (h5_projected_loops m) (h5_guess m)
    (h5_fit m) (h5_fit_parameters m) x (fit m) (log m) (fit_calls m).

Definition set_fit (x : option fit_table) (m : model) : model :=
  mk_model (_maxCpus m) (_maxMemoryMB m) (_maxDataChunk m) (tables m)
    (spec_dims m) (n_met_all_but_forc m) (dc_offset_of_forc m)
    (_dc_offset_index m) (sizes m) (h5_projected_loops m) (h5_guess m)
    (h5_fit m) (h5_fit_parameters m) (cursor m) x (log m) (fit_calls m).

Definition add_log (x : message) (m : model) : model :=
  mk_model (_maxCpus m) (_maxMemoryMB m) (_maxDataChunk m) (tables m)
    (spec_dims m) (n_met_all_but_forc m) (dc_offset_of_forc m)
    (_dc_offset_index m) (sizes m) (h5_projected_loops m) (h5_guess m)
    (h5_fit m) (h5_fit_parameters m) (cursor m) (fit m) (log m ++ [x])
    (fit_calls m).

Definition add_fit_call (x : fit_call V) (m : model) : model :=
  mk_model (_maxCpus m) (_maxMemoryMB m) (_maxDataChunk m) (tables m)
    (spec_dims m) (n_met_all_but_forc m) (dc_offset_of_forc m)
    (_dc_offset_index m) (sizes m) (h5_projected_loops m) (h5_guess m)
    (h5_fit m) (h5_fit_parameters m) (cursor m) (fit m) (log m)
    (fit_calls m ++ [x]).

(** [slice(per_forc * forc, per_forc * (forc + 1))] *)
Definition forc_slice (per_forc forc : Z) : Z * Z :=
  ((per_forc * forc)%Z, (per_forc * (forc + 1))%Z).

(** [_set_guess(h5_guess)]: the datasets of the group of [h5_guess] become
    those of the model, and [_dc_offset_index = 1 + dc_ind]. *)
Definition _set_guess (g : guess_group V) (m : model) : model :=
  set_guess_group (1 + dc_ind (tables m)) g m.

(** [_get_guess_chunk]: read the next chunk of projected loops, then the
    guess records of the current rows and cycle columns, each stripped of
    its last field. *)
Definition _get_guess_chunk (m : model) : result model :=
  let c := cursor m in
  let sz := sizes m in
  let loops := h5_projected_loops m in
  let c1 :=
    if decide (_start_pos c < max_pos sz)%Z then
      let sho := forc_slice (sho_spec_inds_per_forc sz) (_current_forc c) in
      let end_pos := Z.min (Z.of_nat (nrows loops)) (_start_pos c + max_pos sz) in
      mk_cursor (_start_pos c) end_pos (_current_forc c) sho
        (_current_met_spec_slice c) (dc_vec c)
        (Some (h5_slice loops (_start_pos c) end_pos sho.1 sho.2))
        (chunk_guess c)
    else if decide (_current_forc c < num_forcs sz - 1)%Z then
      (* reset for next FORC *)
      let forc := (_current_forc c + 1)%Z in
      let sho := forc_slice (sho_spec_inds_per_forc sz) forc in
      let met := forc_slice (metrics_spec_inds_per_forc sz) forc in
      let end_pos := Z.min (Z.of_nat (nrows loops)) (0 + max_pos sz) in
      mk_cursor 0 end_pos forc sho met (dc_offset_of_forc m forc)
        (Some (h5_slice loops 0 end_pos sho.1 sho.2))
        (chunk_guess c)
    else
      mk_cursor (_start_pos c) (_end_pos c) (_current_forc c)
        (_current_sho_spec_slice c) (_current_met_spec_slice c) (dc_vec c)
        None (chunk_guess c) in
  match h5_guess m with
  | None => Raise TypeError
  | Some h5g =>
      let guess :=
        data (h5_slice h5g (_start_pos c1) (_end_pos c1)
                (_current_met_spec_slice c1).1 (_current_met_spec_slice c1).2) in
      let guess_rows := (λ r, removelast (compound_to_scalar r)) <$> guess in
      Ok (set_cursor
            (mk_cursor (_start_pos c1) (_end_pos c1) (_current_forc c1)
               (_current_sho_spec_slice c1) (_current_met_spec_slice c1)
               (dc_vec c1) (chunk_data c1) guess_rows) m)
  end.

(** [_create_fit_dataset]: an empty table shaped like the guess. *)
Definition _create_fit_dataset (m : model) : model :=
  match h5_guess m with
  | None => add_log (Warned "Need to guess before fitting!") m
  | Some h5g =>
      set_h5_fit
        (Some (mk_ndarray (shape h5g) (replicate (length (data h5g)) zero_record)))
        m
  end.

(** [_reformat_results(results, strategy)] *)
Definition _reformat_results (results : list (OptimizeResult V))
    (strategy : string) : result fit_table :=
  if decide (strategy = "BE_LOOP"%string) then
    recs ← mapM (λ r, realToCompound (opt_x r ++ opt_fun r)) results;
    Ok (mk_ndarray [length recs] recs)
  else Raise UnboundLocalError.

(** [_reshape_results_for_h5(raw_results, nd_mat_shape_dc_first)] *)
Definition _reshape_results_for_h5 (m : model) (raw_results : fit_table)
    (nd_mat_shape_dc_first : list nat) : result (warned fit_table) :=
  loop_metrics_nd ←
    (if decide (n_met_all_but_forc m = 0)
     then np_reshape raw_results [length (data raw_results); 1]
     else np_reshape raw_results (tail nd_mat_shape_dc_first));
  let '(metrics_2d, success) := reshape_from_Ndims loop_metrics_nd in
  if negb success then Ok ([warn_reshape_results], None)
  else Ok ([], Some metrics_2d).

(** The table of switching parameters of a fit table:
    [calc_switching_coef_vec(compound_to_scalar(np.reshape(fit, [-1, 1])),
    nuc_threshold).reshape(fit.shape)]. *)
Definition switching_table (h5_loop_fit : fit_table) (nuc_threshold : V)
  : result (ndarray S) :=
  let loop_coef_vec := compound_to_scalar <$> data h5_loop_fit in
  let switching_coef_vec := calc_switching_coef_vec loop_coef_vec nuc_threshold in
  np_reshape (mk_ndarray [length switching_coef_vec] switching_coef_vec)
             (shape h5_loop_fit).

(** The [while self.data is not None] loop of [do_fit].  The loops, the
    bias vector and the N-D shape are the ones computed before the loop.
    [None] when the loop is still running after [fuel] rounds. *)
Fixpoint fit_chunks (fuel : nat) (loops_2d_shifted : ndarray V)
    (vdc_shifted : list V) (nd_mat_shape_dc_first : list nat)
    (strategy : string) (m : model) (results : list (option fit_table))
  : option (result (model * list (option fit_table))) :=
  match chunk_data (cursor m) with
  | None => Some (Ok (m, results))
  | Some _ =>
      match fuel with
      | 0 => None
      | Datatypes.S fuel' =>
          let guess := chunk_guess (cursor m) in
          let temp := computeFit loops_2d_shifted guess vdc_shifted in
          let m := add_fit_call (mk_call loops_2d_shifted guess vdc_shifted) m in
          let step :=
            temp ← _reformat_results temp strategy;
            '(w, temp) ← _reshape_results_for_h5 m temp nd_mat_shape_dc_first;
            let m := foldl (λ m s, add_log (Warned s) m) m w in
            let c := cursor m in
            let m := set_cursor
                       (mk_cursor (_end_pos c) (_end_pos c) (_current_forc c)
                          (_current_sho_spec_slice c) (_current_met_spec_slice c)
                          (dc_vec c) (chunk_data c) (chunk_guess c)) m in
            m ← _get_guess_chunk m;
            Ok (m, results ++ [temp]) in
          match step with
          | Ok (m, results) =>
              fit_chunks fuel' loops_2d_shifted vdc_shifted
                nd_mat_shape_dc_first strategy m results
          | Raise e => Some (Raise e)
          end
      end
  end.

(** [np.hstack(tuple(results))]: a [None] among the results cannot be
    stacked with arrays. *)
Definition stack_results (results : list (option fit_table)) : result fit_table :=
  match results with
  | [] => Raise ValueError
  | r0 :: _ =>
      parts ← mapM (λ r, match r with
                         | Some a => Ok a
                         | None => Raise ValueError
                         end) results;
      np_hstack (from_option nrows 0 r0) parts
  end.

(** Modelled from the spec: [Model._set_results] is not part of the source
    file.  The concatenated chunk results become the Fit table. *)
Definition _set_results (m : model) : model := set_h5_fit (fit m) m.

Definition do_fit (fuel : nat) (processors max_mem : option Z)
    (legit_solver legit_obj_func : bool) (strategy : string)
    (get_loop_parameters : bool) (h5_guess_arg : option (guess_group V))
    (self : model)
  : option (result (model * option fit_table)) :=
  (* the amount of RAM to use in the fit *)
  let mem :=
    match max_mem with
    | None => Ok (self, _maxDataChunk self)
    | Some mm =>
        let mm := Z.min mm (_maxMemoryMB self) in
        if decide (_maxCpus self = 0%Z) then Raise ZeroDivisionError
        else Ok (set_maxDataChunk (Z.quot mm (_maxCpus self)) self, mm)
    end in
  match mem with
  | Raise e => Some (Raise e)
  | Ok (self, max_mem) =>
      (* ensure that a guess exists *)
      let guessed :=
        match h5_guess_arg with
        | Some g => Some (_set_guess g self)
        | None => match h5_guess self with
                  | Some _ => Some self
                  | None => None
                  end
        end in
      match guessed with
      | None => Some (Ok (add_log (Printed msg_need_guess) self, None))
      | Some self =>
          (* setup the datasets; dc vector and data for the first loop *)
          let prepared :=
            let self := _create_fit_dataset self in
            sz ← _get_sho_chunk_sizes max_mem (tables self)
                   (num_forcs (sizes self)) (num_forc_repeats (sizes self));
            let self := set_sizes sz self in
            let c := cursor self in
            let self :=
              set_cursor
                (mk_cursor 0 (_end_pos c) 0
                   (forc_slice (sho_spec_inds_per_forc sz) 0)
                   (forc_slice (metrics_spec_inds_per_forc sz) 0)
                   (dc_offset_of_forc self 0) (chunk_data c) (chunk_guess c))
                self in
            self ← _get_guess_chunk self;
            (* reshape the sho data by loop *)
            chunk ← (match chunk_data (cursor self) with
                     | Some d => Ok d
                     | None => Raise ValueError
                     end);
            '(loops_2d, nd_shape) ←
              (if decide (length (spec_dims self) = 1) then
                 loops_2d ← np_transpose2 chunk;
                 Ok (loops_2d, shape loops_2d)
               else
                 r ← _reshape_sho_matrix (spec_dims self)
                       (_dc_offset_index self) chunk;
                 match r with
                 | (_, Some (loops_2d, _, nd_shape)) => Ok (loops_2d, nd_shape)
                 | (_, None) => Raise TypeError
                 end);
            (* shift the loops and vdc vector *)
            let '(shift_ind, vdc_shifted) := shift_vdc (dc_vec (cursor self)) in
            loops_2d_shifted ← np_transpose2 (np_roll_rows loops_2d shift_ind);
            Ok (self, loops_2d_shifted, vdc_shifted, nd_shape) in
          match prepared with
          | Raise e => Some (Raise e)
          | Ok (self, loops_2d_shifted, vdc_shifted, nd_shape) =>
              let finish (self : model) : result (model * option fit_table) :=
                if get_loop_parameters then
                  match h5_fit self with
                  | None => Raise AttributeError
                  | Some h5f =>
                      p ← switching_table h5f default_nuc_threshold;
                      let self := set_h5_fit_parameters (Some p) self in
                      Ok (self, h5_fit self)
                  end
                else Ok (self, h5_fit self) in
              if legit_solver && legit_obj_func then
                match fit_chunks fuel loops_2d_shifted vdc_shifted nd_shape
                        strategy self [] with
                | None => None
                | Some (Raise e) => Some (Raise e)
                | Some (Ok (self, results)) =>
                    Some (stacked ← stack_results results;
                          let self := set_fit (Some stacked) self in
                          finish (_set_results self))
                end
              else if legit_obj_func then
                Some (Ok (add_log (Warned warn_no_solver) self, None))
              else if legit_solver then
                Some (Ok (add_log (Warned warn_no_obj_func) self, None))
              else Some (finish self)
          end
      end
  end.

End FitDriver.

(** ** BatchProjector: [_project_loop_batch] *)

(** dtype [loop_metrics32] *)
Record loop_metrics32 (V : Type) : Type := mk_loop_metrics32 {
  Area : V;
  Centroid_x : V;
  Centroid_y : V;
  Rotation_Angle : V;
  Offset : V
}.
Arguments mk_loop_metrics32 {V}.
Arguments Area {V} _.
Arguments Centroid_x {V} _.
Arguments Centroid_y {V} _.
Arguments Rotation_Angle {V} _.
Arguments Offset {V} _.

(** The entries of the dict returned by [projectLoop] that the batch
    reads. *)
Record pix_dict (V : Type) : Type := mk_pix_dict {
  Projected_Loop : list V;
  Rotation_Matrix : list V;
  Geometric_Area : V;
  Centroid : list V
}.
Arguments mk_pix_dict {V}.
Arguments Projected_Loop {V} _.
Arguments Rotation_Matrix {V} _.
Arguments Geometric_Area {V} _.
Arguments Centroid {V} _.

(** The collaborators of the projection; [R] is the compound type [sho32]
    of the response records. *)
Class ProjectServices (V R : Type) : Type := {
  (* record['Amplitude [V]'] *)
  Amplitude : R → V;
  (* record['Phase [rad]'] *)
  Phase : R → V;
  (* utils.be_loop.projectLoop(np.squeeze(dc_offset), amplitude, phase) *)
  projectLoop : list V → list V → list V → pix_dict V
}.

(** [mat[i, :] = x] for a float32 matrix with rows of [nc]: the values are
    cast, a single value is broadcast, any other length is refused. *)
Definition row_store `{FloatOps V} (nc : nat) (mat : list (list V)) (i : nat)
    (x : list V) : result (list (list V)) :=
  if decide (length x = nc) then py_set mat i (f32 <$> x)
  else match x with
       | [x0] => py_set mat i (replicate nc (f32 x0))
       | _ => if decide (i < length mat) then Raise ValueError else Raise IndexError
       end.

Section BatchProjector.
Context {V R : Type} `{FloatOps V} `{ProjectServices V R}.

Definition zero_metrics : loop_metrics32 V :=
  let z := f32 vzero in mk_loop_metrics32 z z z z z.

(** The body of the loop over the pixels. *)
Definition project_pixel (dc_offset : list V) (sho_mat : ndarray R)
    (pixel : nat) (st : list (list V) * list (loop_metrics32 V))
  : result (list (list V) * list (loop_metrics32 V)) :=
  let '(projected_loop_mat, ancillary_mat) := st in
  row ← py_get (rows_of sho_mat) pixel;
  let pix_dict := projectLoop dc_offset (Amplitude <$> row) (Phase <$> row) in
  projected_loop_mat ← row_store (ncols sho_mat) projected_loop_mat pixel
                         (Projected_Loop pix_dict);
  anc ← py_get ancillary_mat pixel;
  rot ← py_get (Rotation_Matrix pix_dict) 0;
  let anc := mk_loop_metrics32 (Area anc) (Centroid_x anc) (Centroid_y anc)
               (f32 rot) (Offset anc) in
  off ← py_get (Rotation_Matrix pix_dict) 1;
  let anc := mk_loop_metrics32 (Area anc) (Centroid_x anc) (Centroid_y anc)
               (Rotation_Angle anc) (f32 off) in
  let anc := mk_loop_metrics32 (f32 (Geometric_Area pix_dict)) (Centroid_x anc)
               (Centroid_y anc) (Rotation_Angle anc) (Offset anc) in
  cx ← py_get (Centroid pix_dict) 0;
  let anc := mk_loop_metrics32 (Area anc) (f32 cx) (Centroid_y anc)
               (Rotation_Angle anc) (Offset anc) in
  cy ← py_get (Centroid pix_dict) 1;
  let anc := mk_loop_metrics32 (Area anc) (Centroid_x anc) (f32 cy)
               (Rotation_Angle anc) (Offset anc) in
  ancillary_mat ← py_set ancillary_mat pixel anc;
  Ok (projected_loop_mat, ancillary_mat).

(** [for pixel in range(num_pixels)] *)
Fixpoint project_pixels (dc_offset : list V) (sho_mat : ndarray R)
    (pixels : list nat) (st : list (list V) * list (loop_metrics32 V))
  : result (list (list V) * list (loop_metrics32 V)) :=
  match pixels with
  | [] => Ok st
  | pixel :: rest =>
      st ← project_pixel dc_offset sho_mat pixel st;
      project_pixels dc_offset sho_mat rest st
  end.

Definition _project_loop_batch (dc_offset : list V) (sho_mat : ndarray R)
  : result (ndarray V * list (loop_metrics32 V)) :=
  let num_pixels := nrows sho_mat in
  let projected_loop_mat :=
    replicate num_pixels (replicate (ncols sho_mat) (f32 vzero)) in
  let ancillary_mat := replicate num_pixels zero_metrics in
  '(projected_loop_mat, ancillary_mat) ←
    project_pixels dc_offset sho_mat (seq 0 num_pixels)
      (projected_loop_mat, ancillary_mat);
  Ok (of_rows projected_loop_mat (ncols sho_mat), ancillary_mat).

(** The metrics read off one projection. *)
Definition metrics_of (pd : pix_dict V) : result (loop_metrics32 V) :=
  rot ← py_get (Rotation_Matrix pd) 0;
  off ← py_get (Rotation_Matrix pd) 1;
  cx ← py_get (Centroid pd) 0;
  cy ← py_get (Centroid pd) 1;
  Ok (mk_loop_metrics32 (f32 (Geometric_Area pd)) (f32 cx) (f32 cy)
        (f32 rot) (f32 off)).

End BatchProjector.

(** ** A small instance over the integers

    Exact integers stand for the floats in the examples; the float32 cast
    is then the identity. *)

#[global] Instance Z_FloatOps : FloatOps Z :=
  {| vzero := 0%Z; vone := 1%Z; vadd := Z.add; vsub := Z.sub;
     vmul := Z.mul; vabs := Z.abs; f32 := id |}.

(** A stand-in solver: it moves each of the nine coefficients by one and
    reports the differences between curve and bias as residuals. *)
Definition toy_fit_loop (vdc curve guess : list Z) : OptimizeResult Z :=
  mk_opt (Z.succ <$> take 9 (guess ++ replicate 9 0%Z))
         ((λ cv, cv.1 - cv.2)%Z <$> zip curve vdc).

Definition toy_tree : cluster_node Z :=
  Node 2 [5; 1; 3; 2]%Z [Node 0 [4; 0; 2; 1]%Z []; Node 1 [6; 2; 4; 3]%Z []].

#[global] Instance toy_services : GuessServices Z :=
  {| KMeans_fit k loops :=
       Ok (take k loops, (λ i, i `mod` k) <$> seq 0 (length loops));
     build_cluster_tree _ _ :=
       mk_tree [Node 0 [4; 0; 2; 1]%Z []; Node 1 [6; 2; 4; 3]%Z []; toy_tree]
               toy_tree;
     generate_guess _ _ := replicate 9 0%Z;
     fit_loop := toy_fit_loop |}.


(** A stand-in for the parallel solver: one result per guess row, whose
    coefficients are the guess and whose residual is the sum of the loop
    it was given. *)
#[global] Instance toy_fit_services : FitServices Z Z :=
  {| computeFit data guess xvals :=
       (λ rg, mk_opt rg.2 [foldl Z.add 0%Z rg.1]) <$> zip (rows_of data) guess;
     calc_switching_coef_vec rows thr := (λ row, foldl Z.add thr row) <$> rows;
     default_nuc_threshold := 3%Z |}.

Definition const_record (n : Z) : loop_fit32 Z :=
  mk_loop_fit32 n n n n n n n n n (100 + n)%Z.

(** Two pixels, two FORC cycles of four bias steps each, one loop per
    pixel and cycle; guessed, not yet fitted. *)
Definition two_forc_tables : sho_tables :=
  {| num_dc_steps := 4; loop_dims := []; dtype_len := 4; dtype_itemsize := 4;
     n_positions := 2; n_sho_spec_cols := 8; n_met_spec_cols := 2;
     forc_axis := Some 2%Z; forc_repeat_axis := None; dc_ind := 0 |}.

Definition two_forc_loops : ndarray Z :=
  mk_ndarray [2; 8] [1; 2; 3; 4; 11; 12; 13; 14;
                     5; 6; 7; 8; 15; 16; 17; 18]%Z.

Definition two_forc_guess : ndarray (loop_fit32 Z) :=
  mk_ndarray [2; 2] [const_record 1; const_record 2;
                     const_record 3; const_record 4].

Definition two_forc_model : BELoopModel Z Z :=
  {| _maxCpus := 2; _maxMemoryMB := 1024; _maxDataChunk := 512;
     tables := two_forc_tables; spec_dims := [4]; n_met_all_but_forc := 0;
     dc_offset_of_forc := λ forc, (λ i, 10 * forc + Z.of_nat i)%Z <$> seq 0 4;
     _dc_offset_index := 1;
     sizes := {| max_pos := 0; sho_spec_inds_per_forc := 0;
                 metrics_spec_inds_per_forc := 0; num_forcs := 1;
                 num_forc_repeats := 1 |};
     h5_projected_loops := two_forc_loops;
     h5_guess := Some two_forc_guess;
     h5_fit := None; h5_fit_parameters := None;
     cursor := mk_cursor 0 0 0 (0, 0)%Z (0, 0)%Z [] None [];
     fit := None; log := []; fit_calls := [] |}.

(** The same model before any guess was made. *)
Definition unguessed_model : BELoopModel Z Z :=
  {| _maxCpus := 2; _maxMemoryMB := 1024; _maxDataChunk := 512;
     tables := two_forc_tables; spec_dims := [4]; n_met_all_but_forc := 0;
     dc_offset_of_forc := λ forc, (λ i, 10 * forc + Z.of_nat i)%Z <$> seq 0 4;
     _dc_offset_index := 0;
     sizes := {| max_pos := 0; sho_spec_inds_per_forc := 0;
                 metrics_spec_inds_per_forc := 0; num_forcs := 1;
                 num_forc_repeats := 1 |};
     h5_projected_loops := mk_ndarray [0; 0] [];
     h5_guess := None;
     h5_fit := None; h5_fit_parameters := None;
     cursor := mk_cursor 0 0 0 (0, 0)%Z (0, 0)%Z [] None [];
     fit := None; log := []; fit_calls := [] |}.

(** The two-cycle model as [do_fit] has it when it enters its chunk loop:
    the chunk sizes are set, the cursor is on the first chunk of cycle 0. *)
Definition two_forc_first_chunk : BELoopModel Z Z :=
  {| _maxCpus := 2; _maxMemoryMB := 1024; _maxDataChunk := 512;
     tables := two_forc_tables; spec_dims := [4]; n_met_all_but_forc := 0;
     dc_offset_of_forc := λ forc, (λ i, 10 * forc + Z.of_nat i)%Z <$> seq 0 4;
     _dc_offset_index := 1;
     sizes := {| max_pos := 2; sho_spec_inds_per_forc := 4;
                 metrics_spec_inds_per_forc := 1; num_forcs := 2;
                 num_forc_repeats := 1 |};
     h5_projected_loops := two_forc_loops;
     h5_guess := Some two_forc_guess;
     h5_fit := None; h5_fit_parameters := None;
     cursor := mk_cursor 0 2 0 (0, 4)%Z (0, 1)%Z [0; 1; 2; 3]%Z
                 (Some (mk_ndarray [2; 4] [1; 2; 3; 4; 5; 6; 7; 8]%Z))
                 [replicate 9 1%Z; replicate 9 3%Z];
     fit := None; log := []; fit_calls := [] |}.

(** A stand-in projection over pairs (amplitude, phase): the projected
    loop is amplitude times phase, shifted by the bias. *)
#[global] Instance toy_project_services : ProjectServices Z (Z * Z) :=
  {| Amplitude := fst;
     Phase := snd;
     projectLoop dc amp ph :=
       mk_pix_dict (zip_with Z.add dc (zip_with Z.mul amp ph))
                   [foldl Z.add 0%Z amp; foldl Z.add 0%Z ph]
                   (foldl Z.add 0%Z dc)
                   [Z.of_nat (length amp); Z.of_nat (length ph)] |}.

(** Two pixels of three bias steps. *)
Definition toy_sho_mat : ndarray (Z * Z) :=
  mk_ndarray [2; 3] [(1, 2); (3, 4); (5, 6); (7, 8); (9, 10); (11, 12)]%Z.

(* ===================================================================== *)
(** * Properties *)
(* ===================================================================== *)

(** ** Index arithmetic of C-ordered arrays *)

Lemma ravel_lt shp idx : in_bounds shp idx → ravel shp idx < np_prod shp.
Proof.
  induction 1 as [|s i shp idx Hi _ IH]; simpl; [lia|].
  fold (np_prod shp). nia.
Qed.

Lemma unravel_in_bounds shp k : k < np_prod shp → in_bounds shp (unravel shp k).
Proof.
  revert k. induction shp as [|s shp IH]; intros k Hk; simpl in *.
  { constructor. }
  fold (np_prod shp) in *.
  assert (np_prod shp ≠ 0) by (intros E; rewrite E in Hk; lia).
  constructor.
  - apply Nat.Div0.div_lt_upper_bound. lia.
  - apply IH. apply Nat.mod_upper_bound. done.
Qed.

Lemma ravel_unravel shp k : k < np_prod shp → ravel shp (unravel shp k) = k.
Proof.
  revert k. induction shp as [|s shp IH]; intros k Hk; simpl in *.
  { lia. }
  fold (np_prod shp) in *.
  assert (np_prod shp ≠ 0) by (intros E; rewrite E in Hk; lia).
  rewrite IH by (by apply Nat.mod_upper_bound).
  pose proof (Nat.div_mod_eq k (np_prod shp)). lia.
Qed.

Lemma unravel_ravel shp idx : in_bounds shp idx → unravel shp (ravel shp idx) = idx.
Proof.
  induction 1 as [|s i shp idx Hi Hb IH]; simpl; [done|].
  fold (np_prod shp).
  pose proof (ravel_lt _ _ Hb) as Hlt.
  f_equal.
  - rewrite Nat.div_add_l by lia. rewrite Nat.div_small by done. lia.
  - rewrite Nat.add_comm, Nat.Div0.mod_add. rewrite Nat.mod_small by done. done.
Qed.


(** ** Axis permutations *)


Lemma gather_aux {A} (l : list A) (g : nat → nat) n j k :
  (∀ i, i < n → g (j + i) < length l) → k < n →
  omap (λ k, l !! g k) (seq j n) !! k = l !! g (j + k).
Proof.
  revert j k. induction n as [|n IH]; intros j k Hg Hk; [lia|].
  simpl. destruct (lookup_lt_is_Some_2 l (g j)) as [x Hx].
  { specialize (Hg 0). rewrite Nat.add_0_r in Hg. apply Hg. lia. }
  rewrite Hx. destruct k as [|k]; simpl.
  - by rewrite Nat.add_0_r.
  - rewrite IH; [f_equal; f_equal; lia| |lia].
    intros i Hi. replace (S j + i) with (j + S i) by lia. apply Hg. lia.
Qed.

Lemma gather_length_aux {A} (l : list A) (g : nat → nat) n j :
  (∀ i, i < n → g (j + i) < length l) →
  length (omap (λ k, l !! g k) (seq j n)) = n.
Proof.
  revert j. induction n as [|n IH]; intros j Hg; [done|].
  simpl. destruct (lookup_lt_is_Some_2 l (g j)) as [x Hx].
  { specialize (Hg 0). rewrite Nat.add_0_r in Hg. apply Hg. lia. }
  rewrite Hx. simpl. f_equal. apply IH.
  intros i Hi. replace (S j + i) with (j + S i) by lia. apply Hg. lia.
Qed.

Lemma gather_lookup {A} (l : list A) f n k :
  (∀ i, i < n → f i < length l) → k < n → gather l f n !! k = l !! f k.
Proof. intros Hf Hk. unfold gather. by rewrite gather_aux. Qed.

Lemma gather_length {A} (l : list A) f n :
  (∀ i, i < n → f i < length l) → length (gather l f n) = n.
Proof. intros Hf. unfold gather. by apply gather_length_aux. Qed.

Lemma take_axes_length axes l : length (take_axes axes l) = length axes.
Proof. unfold take_axes. by rewrite length_fmap. Qed.

Lemma take_axes_id l : take_axes (seq 0 (length l)) l = l.
Proof.
  apply list_eq; intros i. unfold take_axes. rewrite list_lookup_fmap.
  destruct (decide (i < length l)) as [Hi|Hi].
  - rewrite lookup_seq_lt by done. simpl.
    destruct (lookup_lt_is_Some_2 l i Hi) as [x Hx].
    by rewrite (nth_lookup_Some _ _ _ _ Hx).
  - rewrite lookup_seq_ge by lia. rewrite lookup_ge_None_2 by lia. done.
Qed.

Lemma take_axes_compose q p l :
  Forall (λ t, t < length p) q →
  take_axes q (take_axes p l) = take_axes (take_axes q p) l.
Proof.
  intros Hq. unfold take_axes. rewrite <- list_fmap_compose.
  apply Forall_fmap_ext_1. eapply Forall_impl; [exact Hq|].
  intros t Ht. cbv beta. unfold compose.
  destruct (lookup_lt_is_Some_2 p t Ht) as [x Hx].
  rewrite (nth_lookup_Some p t 0 x Hx).
  apply nth_lookup_Some. by rewrite list_lookup_fmap, Hx.
Qed.

Lemma perm_range_elem p n m : p ≡ₚ seq 0 n → m ∈ p ↔ m < n.
Proof. intros ->. rewrite elem_of_seq. lia. Qed.

Lemma perm_range_length p n : p ≡ₚ seq 0 n → length p = n.
Proof. intros ->. apply length_seq. Qed.

Lemma perm_range_Forall p n : p ≡ₚ seq 0 n → Forall (λ t, t < n) p.
Proof. intros Hp. apply Forall_forall. intros m. by rewrite (perm_range_elem p n). Qed.

Lemma np_prod_perm s1 s2 : s1 ≡ₚ s2 → np_prod s1 = np_prod s2.
Proof.
  unfold np_prod. induction 1; simpl; try lia. 
Qed.

Lemma np_prod_take_axes p s :
  p ≡ₚ seq 0 (length s) → np_prod (take_axes p s) = np_prod s.
Proof.
  intros Hp. apply np_prod_perm. unfold take_axes. rewrite Hp.
  fold (take_axes (seq 0 (length s)) s). by rewrite take_axes_id.
Qed.

Lemma index_of_lookup m p : m ∈ p → p !! index_of m p = Some m.
Proof.
  induction p as [|x p IH]; intros Hm; [by apply elem_of_nil in Hm|].
  simpl. destruct (decide (x = m)) as [->|Hne]; [done|].
  simpl. apply IH. apply elem_of_cons in Hm as [->|]; done.
Qed.

Lemma argsort_length p : length (np_argsort p) = length p.
Proof. unfold np_argsort. by rewrite length_fmap, length_seq. Qed.

Lemma argsort_lookup p n m :
  p ≡ₚ seq 0 n → m < n →
  np_argsort p !! m = Some (index_of m p) ∧ p !! index_of m p = Some m.
Proof.
  intros Hp Hm. split.
  - unfold np_argsort. rewrite list_lookup_fmap, (perm_range_length p n Hp).
    by rewrite lookup_seq_lt.
  - apply index_of_lookup. by apply (perm_range_elem p n).
Qed.

Lemma take_axes_argsort p n :
  p ≡ₚ seq 0 n → take_axes (np_argsort p) p = seq 0 n.
Proof.
  intros Hp. apply list_eq; intros m. unfold take_axes.
  rewrite list_lookup_fmap.
  destruct (decide (m < n)) as [Hm|Hm].
  - destruct (argsort_lookup p n m Hp Hm) as [-> Hx]. simpl.
    rewrite (nth_lookup_Some _ _ _ _ Hx). by rewrite lookup_seq_lt.
  - rewrite lookup_seq_ge by lia.
    rewrite lookup_ge_None_2; [done|].
    rewrite argsort_length, (perm_range_length p n Hp). lia.
Qed.

Lemma argsort_Forall p n :
  p ≡ₚ seq 0 n → Forall (λ t, t < n) (np_argsort p).
Proof.
  intros Hp. apply Forall_lookup. intros m t Ht.
  assert (m < n) as Hm.
  { apply lookup_lt_Some in Ht. rewrite argsort_length in Ht.
    by rewrite (perm_range_length p n Hp) in Ht. }
  destruct (argsort_lookup p n m Hp Hm) as [E Hx].
  rewrite E in Ht. injection Ht as <-.
  apply lookup_lt_Some in Hx. by rewrite (perm_range_length p n Hp) in Hx.
Qed.

(** A left inverse of a permutation is its [argsort]. *)
Lemma argsort_inverse p q n :
  q ≡ₚ seq 0 n → length p = n → take_axes q p = seq 0 n → np_argsort q = p.
Proof.
  intros Hq Hlen Hpq. apply list_eq; intros m.
  destruct (decide (m < n)) as [Hm|Hm].
  - destruct (argsort_lookup q n m Hq Hm) as [-> Hx].
    pose proof (lookup_lt_Some _ _ _ Hx) as Ht.
    rewrite (perm_range_length q n Hq) in Ht.
    assert (take_axes q p !! index_of m q = Some (index_of m q)) as E.
    { rewrite Hpq. by rewrite lookup_seq_lt. }
    unfold take_axes in E. rewrite list_lookup_fmap, Hx in E. simpl in E.
    injection E as E.
    destruct (lookup_lt_is_Some_2 p m) as [y Hy]; [lia|].
    rewrite (nth_lookup_Some _ _ _ _ Hy) in E. by rewrite Hy, E.
  - rewrite !lookup_ge_None_2; [done|lia|].
    rewrite argsort_length, (perm_range_length q n Hq). lia.
Qed.

Lemma in_bounds_length shp idx : in_bounds shp idx → length idx = length shp.
Proof. intros H. symmetry. by eapply Forall2_length. Qed.

Lemma in_bounds_take_axes p shp idx :
  Forall (λ t, t < length shp) p → in_bounds shp idx →
  in_bounds (take_axes p shp) (take_axes p idx).
Proof.
  intros Hp Hb. unfold in_bounds, take_axes.
  apply Forall2_fmap, Forall_Forall2_diag.
  eapply Forall_impl; [exact Hp|]. intros t Ht. cbv beta.
  destruct (lookup_lt_is_Some_2 shp t Ht) as [s Hs].
  destruct (Forall2_lookup_l _ _ _ _ _ Hb Hs) as (i & Hi & Hlt).
  by rewrite (nth_lookup_Some _ _ _ _ Hs), (nth_lookup_Some _ _ _ _ Hi).
Qed.


(** ** [np.transpose] *)

Lemma np_transpose_spec {A} (a : ndarray A) p :
  wf a → p ≡ₚ seq 0 (length (shape a)) →
  ∃ b, np_transpose a p = Ok b ∧ shape b = take_axes p (shape a) ∧ wf b ∧
       ∀ k, k < np_prod (shape b) →
            data b !! k =
            data a !! ravel (shape a)
                        (take_axes (np_argsort p) (unravel (shape b) k)).
Proof.
  intros Hwf Hp. unfold np_transpose. rewrite decide_True by done.
  eexists; split; [done|]. simpl.
  set (s := shape a) in *. set (sb := take_axes p s).
  assert (length p = length s) as Hlen by by apply perm_range_length.
  assert (∀ k, k < np_prod sb →
            ravel s (take_axes (np_argsort p) (unravel sb k)) < length (data a))
    as Hin.
  { intros k Hk. rewrite Hwf. apply ravel_lt.
    pose proof (unravel_in_bounds sb k Hk) as Hb.
    apply (in_bounds_take_axes (np_argsort p)) in Hb.
    - subst sb. rewrite take_axes_compose in Hb.
      + rewrite (take_axes_argsort p (length s)), take_axes_id in Hb; done.
      + rewrite Hlen. by apply argsort_Forall.
    - subst sb. rewrite take_axes_length, Hlen. by apply argsort_Forall. }
  split; [done|]. split.
  - unfold wf; simpl. by apply gather_length.
  - intros k Hk. by apply gather_lookup.
Qed.

(** Transposing by [p] and then by an axis order [q] with [p[q[t]] = t]
    gives the array back. *)
Lemma np_transpose_inverse {A} (a : ndarray A) p q :
  wf a →
  p ≡ₚ seq 0 (length (shape a)) → q ≡ₚ seq 0 (length (shape a)) →
  take_axes q p = seq 0 (length (shape a)) →
  ∃ b, np_transpose a p = Ok b ∧ shape b = take_axes p (shape a) ∧ wf b ∧
       np_transpose b q = Ok a.
Proof.
  intros Hwf Hp Hq Hpq.
  destruct (np_transpose_spec a p Hwf Hp) as (b & Hb & Hsb & Hwfb & Hdb).
  exists b. split; [done|]. split; [done|]. split; [done|].
  set (n := length (shape a)) in *.
  assert (length p = n) as Hlp by by apply perm_range_length.
  assert (length q = n) as Hlq by by apply perm_range_length.
  assert (length (shape b) = n) as Hlb by by rewrite Hsb, take_axes_length.
  assert (q ≡ₚ seq 0 (length (shape b))) as Hq' by by rewrite Hlb.
  destruct (np_transpose_spec b q Hwfb Hq') as (c & Hc & Hsc & Hwfc & Hdc).
  rewrite Hc. f_equal.
  assert (shape c = shape a) as Hshape.
  { rewrite Hsc, Hsb, take_axes_compose.
    - rewrite Hpq. apply take_axes_id.
    - rewrite Hlp. by apply perm_range_Forall. }
  assert (np_argsort q = p) as Hiq by by apply (argsort_inverse p q n).
  clear Hsc Hc.
  destruct a as [s l], c as [sc lc]; cbn [shape data] in *. subst sc. f_equal.
  apply list_eq; intros k.
  destruct (decide (k < np_prod s)) as [Hk|Hk].
  - rewrite Hdc by done. rewrite Hiq.
    pose proof (unravel_in_bounds s k Hk) as Hi.
    assert (in_bounds (shape b) (take_axes p (unravel s k))) as Hj.
    { rewrite Hsb. apply in_bounds_take_axes; [|done].
      by apply perm_range_Forall. }
    rewrite Hdb by by apply ravel_lt.
    rewrite unravel_ravel by done.
    rewrite take_axes_compose.
    + rewrite (take_axes_argsort p n) by done.
      replace n with (length (unravel s k)) by by apply in_bounds_length.
      by rewrite take_axes_id, ravel_unravel.
    + rewrite Hlp. by apply argsort_Forall.
  - unfold wf in *; cbn [shape data] in *.
    rewrite !lookup_ge_None_2; [done|lia|lia].
Qed.

(** ** The two axis orders of [_reshape_sho_matrix] *)

Lemma seq_split_at d n : d < n → seq 0 n = seq 0 d ++ [d] ++ seq (d + 1) (n - (d + 1)).
Proof.
  intros Hd. replace n with (d + (1 + (n - (d + 1)))) at 1 by lia.
  rewrite seq_app. f_equal. simpl. f_equal. f_equal. lia.
Qed.

Lemma order_dc_outside_perm d n : d < n → order_dc_outside_nd d n ≡ₚ seq 0 n.
Proof.
  intros Hd. rewrite (seq_split_at d n Hd). unfold order_dc_outside_nd.
  simpl. apply Permutation_middle.
Qed.

Lemma order_dc_reverse_perm d n : d < n → order_dc_offset_reverse d n ≡ₚ seq 0 n.
Proof.
  intros Hd. unfold order_dc_offset_reverse.
  replace n with (S d + (n - (d + 1))) at 2 by lia.
  rewrite seq_app. simpl. rewrite Nat.add_1_r.
  symmetry. apply Permutation_middle.
Qed.

Lemma order_dc_outside_nth d n t :
  d < n → t < n →
  nth t (order_dc_outside_nd d n) 0 =
  if decide (t = 0) then d else if decide (t ≤ d) then t - 1 else t.
Proof.
  intros Hd Ht. unfold order_dc_outside_nd.
  destruct t as [|t]; [done|]. simpl.
  destruct (decide (S t ≤ d)) as [Hle|Hgt].
  - rewrite app_nth1 by (rewrite length_seq; lia).
    rewrite seq_nth by lia. lia.
  - rewrite app_nth2 by (rewrite length_seq; lia).
    rewrite length_seq, seq_nth by lia. lia.
Qed.

(** [order_dc_offset_reverse] undoes [order_dc_outside_nd]. *)
Lemma order_dc_reverse_inverts d n :
  d < n →
  take_axes (order_dc_offset_reverse d n) (order_dc_outside_nd d n) = seq 0 n.
Proof.
  intros Hd. rewrite (seq_split_at d n Hd).
  pose proof (order_dc_outside_nth d n) as Hnth.
  set (p := order_dc_outside_nd d n) in *. clearbody p.
  unfold order_dc_offset_reverse, take_axes. rewrite !fmap_app.
  f_equal; [|f_equal].
  - apply list_eq; intros t. rewrite list_lookup_fmap.
    destruct (decide (t < d)) as [Ht|Ht].
    + rewrite !lookup_seq_lt by done. simpl.
      rewrite Hnth by lia.
      rewrite decide_False by lia. rewrite decide_True by lia. f_equal. lia.
    + by rewrite !lookup_seq_ge by lia.
  - simpl. rewrite (Hnth 0) by lia. done.
  - apply list_eq; intros t. rewrite list_lookup_fmap.
    destruct (decide (t < n - (d + 1))) as [Ht|Ht].
    + rewrite !lookup_seq_lt by done. simpl.
      rewrite Hnth by lia.
      rewrite decide_False by lia. rewrite decide_False by lia. done.
    + by rewrite !lookup_seq_ge by lia.
Qed.

(** ** ReshapeEngine: round trip and failure *)

Lemma np_prod_cons c shp : np_prod (c :: shp) = c * np_prod shp.
Proof. done. Qed.

Lemma np_reshape_same {A} (a : ndarray A) :
  wf a → np_reshape a (shape a) = Ok a.
Proof.
  intros Hwf. unfold np_reshape. rewrite decide_True by done.
  by destruct a.
Qed.

(** C1.  For a raw chunk [position x column] whose column count is the
    product of the axis cardinalities, [_reshape_sho_matrix] succeeds and
    [_reshape_projected_loops_for_h5], applied to the loops, the reverse
    order and the N-D shape it returned, gives the raw chunk back, element
    for element. *)
Theorem reshape_round_trip {A} (raw : ndarray A) npos ncols spec_dims d :
  shape raw = [npos; ncols] →
  wf raw →
  np_prod spec_dims = ncols →
  Forall (λ c, 0 < c) spec_dims →
  1 ≤ d ≤ length spec_dims →
  ∃ loops_2d order_reverse nd_shape,
    _reshape_sho_matrix spec_dims d raw
      = Ok ([], Some (loops_2d, order_reverse, nd_shape)) ∧
    order_reverse = order_dc_offset_reverse d (S (length spec_dims)) ∧
    nth 0 (shape loops_2d) 0 = nth (d - 1) spec_dims 0 ∧
    _reshape_projected_loops_for_h5 loops_2d order_reverse nd_shape
      = Ok ([], Some raw).
Proof.
  intros Hshape Hwf Hcols Hpos Hd.
  destruct raw as [s l]. cbn [shape] in Hshape. subst s.
  unfold wf in Hwf. cbn [shape data] in Hwf.
  rewrite !np_prod_cons in Hwf. change (np_prod []) with 1 in Hwf.
  set (n := S (length spec_dims)).
  set (fit_nd := mk_ndarray (npos :: spec_dims) l).
  assert (wf fit_nd) as Hwf_nd.
  { unfold wf, fit_nd. cbn [shape data]. rewrite np_prod_cons. lia. }
  assert (d < n) as Hdn by (unfold n; lia).
  destruct (np_transpose_inverse fit_nd (order_dc_outside_nd d n)
              (order_dc_offset_reverse d n) Hwf_nd)
    as (fit_nd2 & Ht1 & Hs2 & Hwf2 & Ht2).
  { by apply order_dc_outside_perm. }
  { by apply order_dc_reverse_perm. }
  { by apply order_dc_reverse_inverts. }
  (* the leading extent of the transposed tensor is the number of DC steps *)
  assert (nth 0 (shape fit_nd2) 0 = nth (d - 1) spec_dims 0) as Hlead.
  { rewrite Hs2. unfold take_axes, order_dc_outside_nd. cbn [fmap list_fmap app nth].
    unfold fit_nd. cbn [shape]. destruct d as [|d]; [lia|].
    cbn [nth]. f_equal. lia. }
  assert (0 < nth (d - 1) spec_dims 0) as Hdc.
  { destruct (lookup_lt_is_Some_2 spec_dims (d - 1)) as [c Hc]; [lia|].
    rewrite (nth_lookup_Some _ _ _ _ Hc).
    by apply (Forall_lookup_1 _ _ _ _ Hpos Hc). }
  assert (∃ rest, shape fit_nd2 = nth (d - 1) spec_dims 0 :: rest) as [rest Hrest].
  { destruct (shape fit_nd2) as [|c rest] eqn:E.
    - cbn in Hlead. lia.
    - cbn in Hlead. subst c. by eexists. }
  set (ndc := nth (d - 1) spec_dims 0) in *.
  set (loops_2d := mk_ndarray [ndc; length (data fit_nd2) / ndc] (data fit_nd2)).
  exists loops_2d, (order_dc_offset_reverse d n), (shape fit_nd2).
  split; [|split; [done|split; [done|]]].
  - unfold _reshape_sho_matrix, reshape_to_Ndims, np_reshape.
    cbn [shape data]. rewrite decide_True by (rewrite np_prod_cons; lia).
    cbn [negb]. fold fit_nd.
    change (length (shape fit_nd)) with n.
    rewrite Ht1. cbn [mbind result_bind].
    unfold np_reshape_infer. rewrite Hlead.
    rewrite decide_False by lia.
    rewrite decide_True; [done|].
    rewrite Hwf2, Hrest, np_prod_cons.
    rewrite Nat.mul_comm. apply Nat.Div0.mod_mul.
  - unfold _reshape_projected_loops_for_h5.
    assert (np_reshape loops_2d (shape fit_nd2) = Ok fit_nd2) as ->.
    { unfold np_reshape, loops_2d. cbn [data].
      rewrite decide_True by done. by destruct fit_nd2. }
    cbn [mbind result_bind]. rewrite Ht2. cbn [mbind result_bind].
    unfold reshape_from_Ndims, fit_nd, np_reshape. cbn [shape data].
    rewrite decide_True by (rewrite !np_prod_cons; change (np_prod []) with 1; lia).
    cbn [negb]. by rewrite Hcols.
Qed.

(** A 2 x 6 chunk over axes of cardinalities 2 and 3, bias axis last. *)
Lemma reshape_round_trip_witness :
  ∃ loops_2d order_reverse nd_shape,
    _reshape_sho_matrix [2; 3] 2 (mk_ndarray [2; 6] (seq 0 12))
      = Ok ([], Some (loops_2d, order_reverse, nd_shape)) ∧
    order_reverse = order_dc_offset_reverse 2 3 ∧
    nth 0 (shape loops_2d) 0 = 3 ∧
    _reshape_projected_loops_for_h5 loops_2d order_reverse nd_shape
      = Ok ([], Some (mk_ndarray [2; 6] (seq 0 12))).
Proof.
  apply (reshape_round_trip (mk_ndarray [2; 6] (seq 0 12)) 2 6 [2; 3] 2).
  - reflexivity.
  - reflexivity.
  - reflexivity.
  - repeat constructor.
  - simpl; lia.
Defined.

(** C3.  When the element count of a raw chunk does not factor into the
    N-D shape of the axis model, [_reshape_sho_matrix] produces no loops at
    all: it warns that the chunk could not be reshaped and returns [None],
    and the chunk loop of [do_guess], which unpacks the returned triple,
    stops there with an exception. *)
Theorem reshape_mismatch_fails {A} (raw : ndarray A) npos ncols spec_dims d :
  shape raw = [npos; ncols] →
  length (data raw) ≠ np_prod (npos :: spec_dims) →
  _reshape_sho_matrix spec_dims d raw = Ok ([warn_reshape_raw], None) ∧
  ∀ n_axes, n_axes ≠ 1 →
    do_guess_reshape n_axes spec_dims d raw = Raise TypeError.
Proof.
  intros Hshape Hne.
  assert (_reshape_sho_matrix spec_dims d raw = Ok ([warn_reshape_raw], None))
    as Hflat.
  { unfold _reshape_sho_matrix, reshape_to_Ndims, np_reshape.
    rewrite Hshape. by rewrite decide_False by congruence. }
  split; [done|]. intros n_axes Hn. unfold do_guess_reshape.
  rewrite decide_False by done. by rewrite Hflat.
Qed.

(** Twelve elements do not fill a 2 x 2 x 4 tensor. *)
Lemma reshape_mismatch_fails_witness :
  _reshape_sho_matrix [2; 4] 2 (mk_ndarray [2; 6] (seq 0 12))
    = Ok ([warn_reshape_raw], None) ∧
  ∀ n_axes, n_axes ≠ 1 →
    do_guess_reshape n_axes [2; 4] 2 (mk_ndarray [2; 6] (seq 0 12))
      = Raise TypeError.
Proof.
  apply (reshape_mismatch_fails (mk_ndarray [2; 6] (seq 0 12)) 2 6 [2; 4] 2).
  - reflexivity.
  - simpl; lia.
Defined.

(** ** ChunkPlanner *)




(** ** GuessCascade: the number of clusters *)

(** [round_sqrt n] is the integer nearest to the square root of [n]:
    [r - 1/2 < sqrt n < r + 1/2]. *)
Lemma round_sqrt_nearest n :
  4 * n < (2 * round_sqrt n + 1) * (2 * round_sqrt n + 1) ∧
  (round_sqrt n = 0 ∨
   (2 * round_sqrt n - 1) * (2 * round_sqrt n - 1) < 4 * n).
Proof.
  unfold round_sqrt. pose proof (Nat.sqrt_spec n ltac:(lia)) as [Hlo Hhi].
  set (k := Nat.sqrt n) in *. destruct (decide (n ≤ k * k + k)).
  - split; [nia|]. destruct (decide (k = 0)); [by left|right]. nia.
  - split; [nia|]. right. nia.
Qed.



(** ** GuessCascade: top-down seeding of the tree walk *)

Lemma cluster_node_ind_nested {V} (P : cluster_node V → Prop) :
  (∀ n v cs, Forall P cs → P (Node n v cs)) → ∀ t, P t.
Proof.
  intros Hnode. fix IH 1. intros [n v cs]. apply Hnode.
  induction cs as [|c cs IHcs]; constructor; [apply IH|apply IHcs].
Qed.

Section GuessCascadeFacts.
Context {V : Type} `{FloatOps V} `{GuessServices V}.
Implicit Types (t : cluster_node V) (gm : list (list V)) (fr : list (fit_slot V)).

Lemma py_get_Some {A} (l : list A) i x : l !! i = Some x → py_get l i = Ok x.
Proof. intros E. unfold py_get. by rewrite E. Qed.

Lemma py_set_lt {A} (l : list A) i x :
  i < length l → py_set l i x = Ok (<[i := x]> l).
Proof. intros Hi. unfold py_set. by rewrite decide_True. Qed.

Lemma row_assign_9 gm i (x : list V) :
  length x = 9 → i < length gm → row_assign gm i x = Ok (<[i := f32 <$> x]> gm).
Proof.
  intros Hx Hi. unfold row_assign. rewrite decide_True by done.
  by apply py_set_lt.
Qed.

Lemma store_fits_length (fr : list (fit_slot V)) fits :
  length (store_fits fr fits) = length fr.
Proof.
  revert fr. induction fits as [|nf fits IH]; intros fr; [done|].
  cbn [store_fits foldl]. fold (store_fits (<[nf.1 := Fitted nf.2]> fr) fits).
  by rewrite IH, length_insert.
Qed.

Lemma store_fits_app (fr : list (fit_slot V)) fits1 fits2 :
  store_fits fr (fits1 ++ fits2) = store_fits (store_fits fr fits1) fits2.
Proof. unfold store_fits. apply foldl_app. Qed.

Lemma loop_fit_tree_walk (vdc_shifted : list V) (shift_ind : Z) t :
  (∀ curve guess, length (opt_x (fit_loop vdc_shifted curve guess)) = 9) →
  ∀ gm fr calls seed,
    Forall (λ m, m < length gm) (tree_names t) →
    Forall (λ m, m < length fr) (tree_names t) →
    gm !! node_name t = Some seed →
    ∃ gm',
      _loop_fit_tree vdc_shifted shift_ind t (gm, fr, calls)
        = Ok (gm',
              store_fits fr (walk_fits vdc_shifted shift_ind t seed),
              calls ++ seeded_walk vdc_shifted shift_ind t seed) ∧
      length gm' = length gm.
Proof.
  intros H9. induction t as [n v cs IHcs] using cluster_node_ind_nested.
  intros gm fr calls seed Hgm Hfr Hseed.
  cbn [node_name] in Hseed. cbn [_loop_fit_tree seeded_walk walk_fits].
  rewrite (py_get_Some _ _ _ Hseed). cbn [mbind result_bind].
  cbn [tree_names] in Hgm, Hfr.
  apply Forall_cons in Hgm as [Hn_gm Hcs_gm].
  apply Forall_cons in Hfr as [Hn_fr Hcs_fr].
  rewrite py_set_lt by done. cbn [mbind result_bind].
  set (fit := fit_loop vdc_shifted (np_roll v shift_ind) seed).
  cbn [store_fits foldl fst snd].
  match goal with |- context [foldl ?f ?a ?l] =>
    change (foldl f a l) with (store_fits a l) end.
  set (fr1 := <[n := Fitted fit]> fr).
  assert (length fr1 = length fr) as Hlen1 by apply length_insert.
  rewrite <- Hlen1 in Hcs_fr. clearbody fr1.
  set (calls1 := calls ++ [(n, seed)]).
  assert (∀ w, calls ++ (n, seed) :: w = calls1 ++ w) as Hcalls.
  { intros w. unfold calls1. by rewrite <- (assoc_L (++)). }
  rewrite Hcalls. clearbody calls1. clear Hcalls calls. rename calls1 into calls.
  clear Hn_gm Hn_fr Hseed Hlen1 fr.
  revert gm fr1 Hcs_gm Hcs_fr calls.
  induction IHcs as [|c cs IHc _ IHrest]; intros gm fr Hcs_gm Hcs_fr calls;
    cbn [fmap list_fmap concat] in *.
  { exists gm. by rewrite (right_id_L [] (++)). }
  apply Forall_app in Hcs_gm as [Hc_gm Hcs_gm].
  apply Forall_app in Hcs_fr as [Hc_fr Hcs_fr].
  assert (node_name c < length gm) as Hname.
  { destruct c as [m w ws]. cbn [tree_names node_name] in *.
    by apply Forall_cons in Hc_gm as [? _]. }
  rewrite row_assign_9 by (apply H9 || done). cbn [mbind result_bind].
  set (gm1 := <[node_name c := f32 <$> opt_x fit]> gm).
  destruct (IHc gm1 fr calls (f32 <$> opt_x fit)) as (gm2 & E & Hl2).
  { unfold gm1. by rewrite length_insert. }
  { done. }
  { unfold gm1. by apply list_lookup_insert_eq. }
  rewrite E. cbn [mbind result_bind].
  destruct (IHrest gm2
              (store_fits fr (walk_fits vdc_shifted shift_ind c (f32 <$> opt_x fit))))
    with (calls := calls ++ seeded_walk vdc_shifted shift_ind c (f32 <$> opt_x fit))
    as (gm3 & E3 & Hl3).
  { by rewrite Hl2; unfold gm1; rewrite length_insert. }
  { by rewrite store_fits_length. }
  exists gm3. rewrite E3. split.
  - by rewrite store_fits_app, (assoc_L (++)).
  - rewrite Hl3, Hl2. unfold gm1. by rewrite length_insert.
Qed.

Lemma seeded_walk_names (vdc_shifted : list V) (shift_ind : Z) t seed :
  (seeded_walk vdc_shifted shift_ind t seed).*1 = tree_names t.
Proof.
  revert seed. induction t as [n v cs IHcs] using cluster_node_ind_nested.
  intros seed. cbn [seeded_walk tree_names fmap list_fmap fst]. f_equal.
  generalize (f32 <$> opt_x (fit_loop vdc_shifted (np_roll v shift_ind) seed)).
  intros s. induction IHcs as [|c cs IHc _ IHrest]; [done|].
  cbn [fmap list_fmap concat]. rewrite fmap_app. f_equal; [apply IHc|apply IHrest].
Qed.

Lemma seeded_walk_head (vdc_shifted : list V) (shift_ind : Z) t seed :
  ∃ rest, seeded_walk vdc_shifted shift_ind t seed = (node_name t, seed) :: rest.
Proof. destruct t as [n v cs]. by eexists. Qed.

(** In the walk a child is fitted after its parent, from the coefficients
    of the parent's fit. *)
Lemma seeded_walk_edge (vdc_shifted : list V) (shift_ind : Z) t parent child :
  in_tree parent t → child ∈ node_children parent →
  ∀ seed, ∃ g l1 l2 l3,
    seeded_walk vdc_shifted shift_ind t seed =
    l1 ++ (node_name parent, g) ::
    l2 ++ (node_name child,
           f32 <$> opt_x (fit_loop vdc_shifted
                            (np_roll (node_value parent) shift_ind) g)) :: l3.
Proof.
  intros Hin Hchild. induction Hin as [|n v cs c Hc Hin IH]; intros seed.
  - destruct parent as [n v cs]. cbn [node_children node_name node_value] in *.
    apply list_elem_of_split in Hchild as (cs1 & cs2 & ->).
    cbn [seeded_walk]. set (s := f32 <$> opt_x _).
    rewrite fmap_app, concat_app. cbn [fmap list_fmap concat].
    destruct (seeded_walk_head vdc_shifted shift_ind child s) as [rest ->].
    exists seed, [], (concat ((λ c, seeded_walk vdc_shifted shift_ind c s) <$> cs1)).
    eexists. reflexivity.
  - apply list_elem_of_split in Hc as (cs1 & cs2 & ->).
    cbn [seeded_walk]. set (s := f32 <$> opt_x _).
    rewrite fmap_app, concat_app. cbn [fmap list_fmap concat].
    destruct (IH s) as (g & l1 & l2 & l3 & ->).
    exists g, ((n, seed) :: concat ((λ c, seeded_walk vdc_shifted shift_ind c s) <$> cs1) ++ l1), l2.
    eexists. cbn [app]. f_equal.
    rewrite <- !(assoc_L (++)). f_equal. cbn [app]. f_equal.
    rewrite <- !(assoc_L (++)). done.
Qed.

(** C6.  The walk of [_loop_fit_tree] over a cluster tree whose node
    indices address the guess and fit matrices, with a solver that returns
    nine coefficients: it succeeds; it fits every node of the tree, once, in
    depth-first order, the root from the guess stored for it; and every
    child is fitted after its parent, from a guess that is the coefficient
    vector [x] of the parent's fit as the float32 guess matrix holds it. *)
Theorem loop_fit_tree_seeded (vdc_shifted : list V) (shift_ind : Z)
    t gm fr seed :
  (∀ curve guess, length (opt_x (fit_loop vdc_shifted curve guess)) = 9) →
  Forall (λ m, m < length gm) (tree_names t) →
  Forall (λ m, m < length fr) (tree_names t) →
  gm !! node_name t = Some seed →
  ∃ gm' fr' calls,
    _loop_fit_tree vdc_shifted shift_ind t (gm, fr, []) = Ok (gm', fr', calls) ∧
    calls.*1 = tree_names t ∧
    calls !! 0 = Some (node_name t, seed) ∧
    ∀ parent child,
      in_tree parent t → child ∈ node_children parent →
      ∃ g l1 l2 l3,
        calls =
        l1 ++ (node_name parent, g) ::
        l2 ++ (node_name child,
               f32 <$> opt_x (fit_loop vdc_shifted
                                (np_roll (node_value parent) shift_ind) g))
        :: l3.
Proof.
  intros H9 Hgm Hfr Hseed.
  destruct (loop_fit_tree_walk vdc_shifted shift_ind t H9 gm fr [] seed
              Hgm Hfr Hseed) as (gm' & E & _).
  exists gm', (store_fits fr (walk_fits vdc_shifted shift_ind t seed)),
    (seeded_walk vdc_shifted shift_ind t seed).
  split; [done|]. split; [apply seeded_walk_names|]. split.
  - by destruct (seeded_walk_head vdc_shifted shift_ind t seed) as [rest ->].
  - intros parent child Hin Hchild. by apply seeded_walk_edge.
Qed.

End GuessCascadeFacts.

Lemma toy_fit_loop_9 vdc curve guess :
  length (opt_x (toy_fit_loop vdc curve guess)) = 9.
Proof.
  unfold toy_fit_loop. cbn [opt_x].
  rewrite length_fmap, length_take, length_app, length_replicate. lia.
Qed.

(** A root with two leaves: both leaves are seeded with the root's fit. *)
Lemma loop_fit_tree_seeded_witness :
  ∃ gm' fr' calls,
    _loop_fit_tree [0; 1; 2; 3]%Z (-1) toy_tree
      (replicate 3 (replicate 9 0%Z), Placeholder <$> seq 0 3, [])
      = Ok (gm', fr', calls) ∧
    calls.*1 = tree_names toy_tree ∧
    calls !! 0 = Some (node_name toy_tree, replicate 9 0%Z) ∧
    ∀ parent child,
      in_tree parent toy_tree → child ∈ node_children parent →
      ∃ g l1 l2 l3,
        calls =
        l1 ++ (node_name parent, g) ::
        l2 ++ (node_name child,
               f32 <$> opt_x (fit_loop [0; 1; 2; 3]%Z
                                (np_roll (node_value parent) (-1)) g))
        :: l3.
Proof.
  apply (loop_fit_tree_seeded [0; 1; 2; 3]%Z (-1) toy_tree
           (replicate 3 (replicate 9 0%Z)) (Placeholder <$> seq 0 3)
           (replicate 9 0%Z)).
  - intros curve guess. apply toy_fit_loop_9.
  - repeat constructor.
  - repeat constructor.
  - reflexivity.
Defined.

(** ** GuessCascade: the guess record of each pixel *)

Section GuessRecordFacts.
Context {V : Type} `{FloatOps V}.

Lemma where_from_elem (labels : list nat) c i p :
  p ∈ where_from i labels c ↔ ∃ q, p = i + q ∧ labels !! q = Some c.
Proof.
  revert i. induction labels as [|l ls IH]; intros i; cbn [where_from].
  { split; [by intros ?%elem_of_nil|by intros (q & _ & ?)]. }
  destruct (decide (l = c)) as [->|Hne].
  - rewrite elem_of_cons, IH. split.
    + intros [->|(q & -> & Hq)]; [exists 0|exists (S q)]; split; done || lia.
    + intros ([|q] & -> & Hq); [left; lia|right].
      exists q. split; [lia|done].
  - rewrite IH. split.
    + intros (q & -> & Hq). exists (S q). split; [lia|done].
    + intros ([|q] & -> & Hq); [by injection Hq|].
      exists q. split; [lia|done].
Qed.

Lemma np_where_eq_elem (labels : list nat) c p :
  p ∈ np_where_eq labels c ↔ labels !! p = Some c.
Proof.
  unfold np_where_eq. rewrite where_from_elem. split.
  - by intros (q & -> & Hq).
  - intros Hp. by exists p.
Qed.

Lemma foldr_insert_length {A} (arr : list A) idxs v :
  length (foldr (λ i a, <[i := v]> a) arr idxs) = length arr.
Proof. induction idxs as [|i idxs IH]; [done|]. cbn. by rewrite length_insert. Qed.

Lemma foldr_insert_lookup {A} (arr : list A) idxs v p :
  p < length arr →
  foldr (λ i a, <[i := v]> a) arr idxs !! p =
  if decide (p ∈ idxs) then Some v else arr !! p.
Proof.
  intros Hp. induction idxs as [|i idxs IH]; cbn [foldr].
  { rewrite decide_False; [done|]. by intros ?%elem_of_nil. }
  destruct (decide (i = p)) as [->|Hne].
  - rewrite list_lookup_insert_eq by by rewrite foldr_insert_length.
    rewrite decide_True; [done|]. by left.
  - rewrite list_lookup_insert_ne by done. rewrite IH.
    destruct (decide (p ∈ idxs)) as [Hin|Hnin].
    + rewrite decide_True; [done|]. by right.
    + rewrite decide_False; [done|].
      by intros [->|]%elem_of_cons.
Qed.

Lemma index_assign_where {A} (arr : list A) (labels : list nat) c v :
  length arr = length labels →
  ∃ arr', index_assign arr (np_where_eq labels c) v = Ok arr' ∧
          length arr' = length labels ∧
          ∀ p l, labels !! p = Some l →
                 arr' !! p = if decide (l = c) then Some v else arr !! p.
Proof.
  intros Hlen. unfold index_assign.
  rewrite decide_True.
  - eexists; split; [done|]. split; [by rewrite foldr_insert_length|].
    intros p l Hl.
    rewrite foldr_insert_lookup
      by (rewrite Hlen; by apply lookup_lt_Some in Hl).
    destruct (decide (l = c)) as [->|Hne].
    + rewrite decide_True; [done|]. by apply np_where_eq_elem.
    + rewrite decide_False; [done|].
      rewrite np_where_eq_elem. congruence.
  - apply Forall_forall. intros p Hp%np_where_eq_elem.
    rewrite Hlen. by apply lookup_lt_Some in Hp.
Qed.

(** A fit with nine coefficients makes a record whose fields are the
    coefficients and the R2 criterion, cast to float32. *)
Lemma cluster_record_fields (res : OptimizeResult V) :
  length (opt_x res) = 9 →
  ∃ rec, cluster_record res = Ok rec ∧
         compound_to_scalar rec = f32 <$> (opt_x res ++ [r2_criterion res]).
Proof.
  intros H9. unfold cluster_record, realToCompound.
  destruct res as [x fn]. cbn [opt_x] in *.
  do 9 (destruct x as [|? x]; [discriminate H9|]).
  destruct x; [|discriminate H9].
  by eexists.
Qed.

Lemma assign_guesses_spec (labels : list nat) (fr : list (fit_slot V)) ids gp0 :
  length gp0 = length labels →
  (∀ c, c ∈ ids →
        ∃ res, fr !! c = Some (Fitted res) ∧ length (opt_x res) = 9) →
  ∃ gp, assign_guesses labels fr ids gp0 = Ok gp ∧
        length gp = length labels ∧
        ∀ p c, labels !! p = Some c →
          (c ∈ ids → ∃ res rec, fr !! c = Some (Fitted res) ∧
                                cluster_record res = Ok rec ∧
                                gp !! p = Some rec) ∧
          (c ∉ ids → gp !! p = gp0 !! p).
Proof.
  revert gp0. induction ids as [|c0 rest IH]; intros gp0 Hlen Hfr.
  { exists gp0. split; [done|]. split; [done|]. intros p c _.
    split; [by intros ?%elem_of_nil|done]. }
  destruct (Hfr c0) as (res0 & Hres0 & H9); [by left|].
  destruct (cluster_record_fields res0 H9) as (rec0 & Hrec0 & _).
  destruct (index_assign_where gp0 labels c0 rec0 Hlen)
    as (gp1 & Hassign & Hlen1 & Hgp1).
  destruct (IH gp1 Hlen1) as (gp & Hgp & Hlen' & Hspec).
  { intros c Hc. apply Hfr. by right. }
  exists gp. split; [|split; [done|]].
  - cbn [assign_guesses]. unfold cluster_fit, py_get. rewrite Hres0.
    cbn [mbind result_bind]. rewrite Hrec0. cbn [mbind result_bind].
    rewrite Hassign. cbn [mbind result_bind]. done.
  - intros p c Hp. destruct (Hspec p c Hp) as [Hin Hout]. split.
    + intros Hc. destruct (decide (c ∈ rest)) as [Hrest|Hrest]; [by apply Hin|].
      apply elem_of_cons in Hc as [->|]; [|done].
      exists res0, rec0. split; [done|]. split; [done|].
      rewrite (Hout Hrest), (Hgp1 p c0 Hp). by rewrite decide_True.
    + intros Hc. apply not_elem_of_cons in Hc as [Hne Hrest].
      rewrite (Hout Hrest), (Hgp1 p c Hp). by rewrite decide_False.
Qed.


End GuessRecordFacts.


(** The criterion is one minus the sum of the squared residuals: residuals
    1 and 2 give 1 - 5, where a mean would give 1 - 5/2. *)
Example r2_criterion_sums :
  r2_criterion (mk_opt (replicate 9 0%Z) [1; 2]%Z) = (-4)%Z.
Proof. reflexivity. Qed.

(** ** GuessCascade: from the clusters to the guess table *)

Section GuessLoopsFacts.
Context {V : Type} `{FloatOps V} `{GuessServices V}.

Lemma walk_fits_names (vdc_shifted : list V) (shift_ind : Z)
    (t : cluster_node V) seed :
  (walk_fits vdc_shifted shift_ind t seed).*1 = tree_names t.
Proof.
  revert seed. induction t as [n v cs IHcs] using cluster_node_ind_nested.
  intros seed. cbn [walk_fits tree_names fmap list_fmap fst]. f_equal.
  generalize (f32 <$> opt_x (fit_loop vdc_shifted (np_roll v shift_ind) seed)).
  intros s. induction IHcs as [|c cs IHc _ IHrest]; [done|].
  cbn [fmap list_fmap concat]. rewrite fmap_app. f_equal; [apply IHc|apply IHrest].
Qed.

Lemma elem_of_concat {A} (x : A) (ls : list (list A)) :
  x ∈ concat ls → ∃ l, x ∈ l ∧ l ∈ ls.
Proof.
  induction ls as [|l ls IH]; cbn [concat]; [by intros ?%elem_of_nil|].
  intros [Hx|Hx]%elem_of_app.
  - exists l. split; [done|by left].
  - destruct (IH Hx) as (l' & ? & ?). exists l'. split; [done|by right].
Qed.

(** Every fit of the walk is the fit of a node of the tree. *)
Lemma walk_fits_in_tree (vdc_shifted : list V) (shift_ind : Z)
    (t : cluster_node V) seed n r :
  (n, r) ∈ walk_fits vdc_shifted shift_ind t seed →
  ∃ u g, in_tree u t ∧ node_name u = n ∧
         r = fit_loop vdc_shifted (np_roll (node_value u) shift_ind) g.
Proof.
  revert seed. induction t as [m v cs IHcs] using cluster_node_ind_nested.
  intros seed. cbn [walk_fits]. intros [E|Hin]%elem_of_cons.
  - injection E as -> ->. exists (Node m v cs), seed.
    split; [constructor|done].
  - apply elem_of_concat in Hin as (l & Hl & Hin).
    apply list_elem_of_fmap in Hin as (c & -> & Hc).
    rewrite Forall_forall in IHcs.
    destruct (IHcs c Hc _ Hl) as (u & g & Hu & Hname & Hr).
    exists u, g. split; [|done]. by apply (in_tree_child u m v cs c).
Qed.

Lemma store_fits_lookup_notin (fr : list (fit_slot V)) fits n :
  n ∉ fits.*1 → store_fits fr fits !! n = fr !! n.
Proof.
  revert fr. induction fits as [|[n0 r0] fits IH]; intros fr Hn; [done|].
  cbn [fmap list_fmap fst] in Hn. apply not_elem_of_cons in Hn as [Hne Hn].
  cbn [store_fits foldl fst snd].
  fold (store_fits (<[n0 := Fitted r0]> fr) fits).
  rewrite IH by done. by apply list_lookup_insert_ne.
Qed.

Lemma store_fits_lookup (fr : list (fit_slot V)) fits n r :
  NoDup fits.*1 → (n, r) ∈ fits → n < length fr →
  store_fits fr fits !! n = Some (Fitted r).
Proof.
  revert fr. induction fits as [|[n0 r0] fits IH]; intros fr Hnd Hin Hn.
  { by apply elem_of_nil in Hin. }
  cbn [fmap list_fmap fst] in Hnd. apply NoDup_cons in Hnd as [Hfresh Hnd].
  cbn [store_fits foldl fst snd].
  fold (store_fits (<[n0 := Fitted r0]> fr) fits).
  apply elem_of_cons in Hin as [E|Hin].
  - injection E as -> ->. rewrite store_fits_lookup_notin by done.
    by apply list_lookup_insert_eq.
  - apply IH; [done|done|by rewrite length_insert].
Qed.

(** X15.  The guess table of a chunk.  When k-means labels every loop, the
    tree built on its centroids has distinct node indices that address its node
    list, its root being the last node, every cluster index is a node of
    it, and the guess and the fits hold nine coefficients, [_guess_loops]
    succeeds and the record of a pixel is made of the fit of the tree node
    whose index is the pixel's label. *)
Theorem guess_loops_records (vdc_vec : list V) (loops : list (list V))
    (centroids : list (list V)) (labels : list nat) :
  let k := num_clusters (length loops) in
  let ct := build_cluster_tree centroids labels in
  let shifted := shift_vdc vdc_vec in
  KMeans_fit k loops = Ok (centroids, labels) →
  length labels = length loops →
  0 < length (nodes ct) →
  node_name (tree ct) = length (nodes ct) - 1 →
  NoDup (tree_names (tree ct)) →
  Forall (λ m, m < length (nodes ct)) (tree_names (tree ct)) →
  (∀ c, c < k → c ∈ tree_names (tree ct)) →
  length (generate_guess vdc_vec (node_value (tree ct))) = 9 →
  (∀ curve guess, length (opt_x (fit_loop shifted.2 curve guess)) = 9) →
  ∃ gp, _guess_loops vdc_vec loops = Ok gp ∧
        length gp = length loops ∧
        ∀ p c, labels !! p = Some c → c < k →
          ∃ u g rec,
            in_tree u (tree ct) ∧ node_name u = c ∧
            gp !! p = Some rec ∧
            let fit := fit_loop shifted.2 (np_roll (node_value u) shifted.1) g in
            compound_to_scalar rec = f32 <$> (opt_x fit ++ [r2_criterion fit]).
Proof.
  intros k ct shifted Hkm Hlabels Hnodes Hroot Hnd Hrange Hleaves Hg9 H9.
  unfold _guess_loops. fold k. rewrite Hkm. cbn [mbind result_bind]. fold ct.
  destruct (shift_vdc vdc_vec) as [shift_ind vdc_shifted] eqn:Hshift.
  subst shifted. cbn [fst snd] in *.
  set (gm0 := replicate (length (nodes ct)) (replicate 9 (f32 vzero))).
  set (fr0 := Placeholder <$> seq 0 (length (nodes ct))).
  assert (length gm0 = length (nodes ct)) as Hgm0 by apply length_replicate.
  assert (length fr0 = length (nodes ct)) as Hfr0
    by (unfold fr0; by rewrite length_fmap, length_seq).
  rewrite row_assign_9 by (done || lia). cbn [mbind result_bind].
  set (seed := f32 <$> generate_guess vdc_vec (node_value (tree ct))).
  destruct (loop_fit_tree_walk vdc_shifted shift_ind (tree ct) H9
              (<[length (nodes ct) - 1 := seed]> gm0) fr0 [] seed)
    as (gm' & E & _).
  { by rewrite length_insert, Hgm0. }
  { by rewrite Hfr0. }
  { rewrite Hroot. apply list_lookup_insert_eq. lia. }
  rewrite E. cbn [mbind result_bind].
  set (fits := walk_fits vdc_shifted shift_ind (tree ct) seed) in *.
  assert (∀ c, c < k → ∃ res u g,
            store_fits fr0 fits !! c = Some (Fitted res) ∧
            in_tree u (tree ct) ∧ node_name u = c ∧
            res = fit_loop vdc_shifted (np_roll (node_value u) shift_ind) g)
    as Hfits.
  { intros c Hc. pose proof (Hleaves c Hc) as Hin.
    rewrite <- (walk_fits_names vdc_shifted shift_ind (tree ct) seed) in Hin.
    apply list_elem_of_fmap in Hin as ([n r] & -> & Hin). cbn [fst].
    destruct (walk_fits_in_tree _ _ _ _ _ _ Hin) as (u & g & Hu & Hname & Hr).
    exists r, u, g. split; [|done].
    apply store_fits_lookup; [|done|].
    - unfold fits. by rewrite walk_fits_names.
    - rewrite Hfr0. rewrite Forall_forall in Hrange. apply Hrange.
      by apply Hleaves. }
  destruct (assign_guesses_spec labels (store_fits fr0 fits) (seq 0 k)
              (replicate (length loops) zero_record))
    as (gp & Hgp & Hlen & Hspec).
  { by rewrite length_replicate. }
  { intros c Hc%elem_of_seq.
    destruct (Hfits c) as (res & u & g & Hres & _ & _ & ->); [lia|].
    exists (fit_loop vdc_shifted (np_roll (node_value u) shift_ind) g).
    split; [done|apply H9]. }
  exists gp. split; [done|]. split; [by rewrite Hlen|].
  intros p c Hp Hc.
  destruct (Hspec p c Hp) as [Hin _].
  destruct Hin as (res & rec & Hres & Hrec & Hlook); [apply elem_of_seq; lia|].
  destruct (Hfits c Hc) as (res' & u & g & Hres' & Hu & Hname & ->).
  rewrite Hres' in Hres. injection Hres as <-.
  exists u, g, rec. split; [done|]. split; [done|]. split; [done|].
  cbn zeta.
  destruct (cluster_record_fields
              (fit_loop vdc_shifted (np_roll (node_value u) shift_ind) g))
    as (rec' & Hrec' & Hfields); [apply H9|].
  rewrite Hrec' in Hrec. injection Hrec as <-. exact Hfields.
Qed.

End GuessLoopsFacts.

(** Five loops of four bias steps, clustered in two by the stand-in
    services. *)
Example guess_loops_records_toy :
  let loops := [[1; 2; 3; 4]; [2; 3; 4; 5]; [3; 4; 5; 6]; [7; 8; 9; 1];
                [1; 1; 1; 1]]%Z in
  ∃ gp, _guess_loops [0; 1; 2; 3]%Z loops = Ok gp ∧
        length gp = 5 ∧
        ∀ p c, [0; 1; 0; 1; 0] !! p = Some c → c < 2 →
          ∃ u g rec,
            in_tree u toy_tree ∧ node_name u = c ∧
            gp !! p = Some rec ∧
            let fit := toy_fit_loop [1; 2; 3; 0]%Z (np_roll (node_value u) (-1)) g in
            compound_to_scalar rec = f32 <$> (opt_x fit ++ [r2_criterion fit]).
Proof.
  intros loops.
  refine (guess_loops_records (V := Z) [0; 1; 2; 3]%Z loops (take 2 loops)
            [0; 1; 0; 1; 0] _ _ _ _ _ _ _ _ _).
  - reflexivity.
  - reflexivity.
  - cbn; lia.
  - reflexivity.
  - cbn. apply (bool_decide_unpack (NoDup [2; 0; 1])). by vm_compute.
  - repeat constructor.
  - intros c Hc. cbn in Hc. cbn.
    destruct c as [|[|c]]; [repeat constructor|repeat constructor|lia].
  - reflexivity.
  - intros curve guess. apply toy_fit_loop_9.
Defined.

(** ** FitDriver *)

Section FitDriverFacts.
Context {V S : Type} `{FloatOps V} `{FitServices V S}.
Implicit Types (m self : BELoopModel V S).

(** The row read for a guess record: its nine coefficients. *)
Lemma removelast_compound_to_scalar (r : loop_fit32 V) :
  removelast (compound_to_scalar r) =
  [a_0 r; a_1 r; a_2 r; a_3 r; a_4 r; b_0 r; b_1 r; b_2 r; b_3 r].
Proof. reflexivity. Qed.

Lemma get_guess_chunk_frame m m' :
  _get_guess_chunk m = Ok m' →
  fit_calls m' = fit_calls m ∧ log m' = log m ∧ h5_guess m' = h5_guess m ∧
  Forall (λ row, length row = 9) (chunk_guess (cursor m')).
Proof.
  unfold _get_guess_chunk. destruct (h5_guess m) as [h5g|] eqn:Hg; [|done].
  intros [= <-]. cbn. rewrite Hg. repeat split.
  apply Forall_fmap, Forall_true. done.
Qed.

(** Every solver call made by the chunk loop is given the loops and the
    bias vector that were computed before the loop, whatever chunk the
    cursor is on. *)
Lemma fit_chunks_calls fuel (loops : ndarray V) (vdc : list V) nd strategy
    m results m' results' :
  fit_chunks fuel loops vdc nd strategy m results = Some (Ok (m', results')) →
  ∃ new, fit_calls m' = fit_calls m ++ new ∧
         Forall (λ c, call_data c = loops ∧ call_xvals c = vdc) new.
Proof.
  revert m results. induction fuel as [|fuel IH]; intros m results;
    cbn [fit_chunks]; destruct (chunk_data (cursor m)) as [d|] eqn:Hd.
  - done.
  - intros [= <- <-]. exists []. by rewrite (right_id_L [] (++)).
  - destruct (_reformat_results _ _) as [temp|e]; [|done]. cbn [mbind result_bind].
    destruct (_reshape_results_for_h5 _ _ _) as [[w temp']|e]; [|done].
    cbn [mbind result_bind].
    match goal with |- context [_get_guess_chunk ?x] =>
      destruct (_get_guess_chunk x) as [m1|e] eqn:Hnext end; [|done].
    cbn [mbind result_bind]. intros Hrest.
    apply IH in Hrest as (new & Hcalls & Hnew).
    apply get_guess_chunk_frame in Hnext as (Hfc & _).
    rewrite Hfc in Hcalls. cbn [set_cursor fit_calls] in Hcalls.
    assert (∀ (ws : list string) m0,
              fit_calls (foldl (λ m s, add_log (Warned s) m) m0 ws)
              = fit_calls m0) as Hfold.
    { intros ws. induction ws as [|s ws IHws]; intros m0; [done|].
      cbn [foldl]. by rewrite IHws. }
    rewrite Hfold in Hcalls. cbn [add_fit_call fit_calls] in Hcalls.
    exists (mk_call loops (chunk_guess (cursor m)) vdc :: new).
    split; [by rewrite Hcalls, <- (assoc_L (++))|].
    constructor; [done|exact Hnew].
  - intros [= <- <-]. exists []. by rewrite (right_id_L [] (++)).
Qed.

(** The guess given to the solver in every round of the chunk loop is the
    one [_get_guess_chunk] left: rows of nine coefficients. *)
Lemma fit_chunks_guess_rows fuel (loops : ndarray V) (vdc : list V) nd strategy
    m results m' results' :
  Forall (λ row, length row = 9) (chunk_guess (cursor m)) →
  fit_chunks fuel loops vdc nd strategy m results = Some (Ok (m', results')) →
  ∃ new, fit_calls m' = fit_calls m ++ new ∧
         Forall (λ c, Forall (λ row, length row = 9) (call_guess c)) new.
Proof.
  revert m results. induction fuel as [|fuel IH]; intros m results Hrows;
    cbn [fit_chunks]; destruct (chunk_data (cursor m)) as [d|] eqn:Hd.
  - done.
  - intros [= <- <-]. exists []. by rewrite (right_id_L [] (++)).
  - destruct (_reformat_results _ _) as [temp|e]; [|done]. cbn [mbind result_bind].
    destruct (_reshape_results_for_h5 _ _ _) as [[w temp']|e]; [|done].
    cbn [mbind result_bind].
    match goal with |- context [_get_guess_chunk ?x] =>
      destruct (_get_guess_chunk x) as [m1|e] eqn:Hnext end; [|done].
    cbn [mbind result_bind]. intros Hrest.
    apply get_guess_chunk_frame in Hnext as (Hfc & _ & _ & Hrows1).
    apply IH in Hrest as (new & Hcalls & Hnew); [|exact Hrows1].
    rewrite Hfc in Hcalls. cbn [set_cursor fit_calls] in Hcalls.
    assert (∀ (ws : list string) m0,
              fit_calls (foldl (λ m s, add_log (Warned s) m) m0 ws)
              = fit_calls m0) as Hfold.
    { intros ws. induction ws as [|s ws IHws]; intros m0; [done|].
      cbn [foldl]. by rewrite IHws. }
    rewrite Hfold in Hcalls. cbn [add_fit_call fit_calls] in Hcalls.
    exists (mk_call loops (chunk_guess (cursor m)) vdc :: new).
    split; [by rewrite Hcalls, <- (assoc_L (++))|].
    constructor; [exact Hrows|exact Hnew].
  - intros [= <- <-]. exists []. by rewrite (right_id_L [] (++)).
Qed.

(** C8.  Without a guess, neither passed nor left by a guess phase,
    [do_fit] prints that a guess is needed and returns [None]; it calls no
    solver, creates no Fit table and touches neither the stored tables nor
    the chunk cursor.  The only attribute it may have changed by then is
    [_maxDataChunk], when a memory limit was passed. *)
Theorem do_fit_needs_guess (fuel : nat) (processors max_mem : option Z)
    (legit_solver legit_obj_func : bool) (strategy : string)
    (get_loop_parameters : bool) self :
  h5_guess self = None →
  (0 < _maxCpus self)%Z →
  ∃ self',
    do_fit fuel processors max_mem legit_solver legit_obj_func strategy
      get_loop_parameters None self = Some (Ok (self', None)) ∧
    log self' = log self ++ [Printed msg_need_guess] ∧
    fit_calls self' = fit_calls self ∧
    h5_fit self' = h5_fit self ∧
    h5_fit_parameters self' = h5_fit_parameters self ∧
    fit self' = fit self ∧
    h5_guess self' = None ∧
    h5_projected_loops self' = h5_projected_loops self ∧
    cursor self' = cursor self ∧
    sizes self' = sizes self ∧
    (max_mem = None → self' = add_log (Printed msg_need_guess) self).
Proof.
  intros Hg Hcpu. unfold do_fit. destruct max_mem as [mm|].
  - rewrite decide_False by lia. cbn [set_maxDataChunk h5_guess]. rewrite Hg.
    eexists; split; [done|]. by cbn.
  - rewrite Hg. eexists; split; [done|]. by cbn.
Qed.

End FitDriverFacts.

(** A model that was never guessed, asked to fit within 5 MB. *)
Lemma do_fit_needs_guess_witness :
  ∃ self',
    do_fit 0 None (Some 5%Z) true true "BE_LOOP" true None unguessed_model
      = Some (Ok (self', None)) ∧
    log self' = log unguessed_model ++ [Printed msg_need_guess] ∧
    fit_calls self' = fit_calls unguessed_model ∧
    h5_fit self' = h5_fit unguessed_model ∧
    h5_fit_parameters self' = h5_fit_parameters unguessed_model ∧
    fit self' = fit unguessed_model ∧
    h5_guess self' = None ∧
    h5_projected_loops self' = h5_projected_loops unguessed_model ∧
    cursor self' = cursor unguessed_model ∧
    sizes self' = sizes unguessed_model ∧
    (Some 5%Z = None → self' = add_log (Printed msg_need_guess) unguessed_model).
Proof.
  apply (do_fit_needs_guess (V := Z) (S := Z)).
  - reflexivity.
  - reflexivity.
Defined.

(** C5 fails on the code.  On the model with two FORC cycles the fit phase
    runs the solver on two chunks; the second call is given the guess of
    the second cycle, but the loops and the shifted bias vector of the
    first: the loops stored for the second cycle are 11..18 and its bias
    vector is 10..13. *)
Theorem do_fit_second_chunk_stale :
  ∃ self' ret c1 c2,
    do_fit 5 None None true true "BE_LOOP" true None two_forc_model
      = Some (Ok (self', ret)) ∧
    fit_calls self' = [c1; c2] ∧
    call_data c1 = mk_ndarray [2; 4] [2; 3; 4; 1; 6; 7; 8; 5]%Z ∧
    call_xvals c1 = [1; 2; 3; 0]%Z ∧
    call_guess c2 = [replicate 9 2%Z; replicate 9 4%Z] ∧
    call_data c2 = call_data c1 ∧
    call_xvals c2 = call_xvals c1 ∧
    h5_slice two_forc_loops 0 2 4 8
      = mk_ndarray [2; 4] [11; 12; 13; 14; 15; 16; 17; 18]%Z ∧
    dc_offset_of_forc two_forc_model 1 = [10; 11; 12; 13]%Z.
Proof.
  eexists _, _, _, _. split; [vm_compute; reflexivity|].
  cbn [fit_calls]. split; [reflexivity|]. repeat split.
Qed.

(* ===================================================================== *)
(** * Further properties of the code *)
(* ===================================================================== *)

(** ** [shift_vdc] and the quarter-cycle roll *)

Lemma np_roll_left {A} (v : list A) (q : nat) :
  q < length v → np_roll v (- Z.of_nat q) = drop q v ++ take q v.
Proof.
  intros Hq. unfold np_roll. destruct (length v) as [|n] eqn:Hn; [lia|].
  rewrite Z.opp_involutive, Z.mod_small by lia.
  by rewrite Nat2Z.id.
Qed.

Lemma np_roll_length {A} (v : list A) (s : Z) : length (np_roll v s) = length v.
Proof.
  unfold np_roll. destruct (length v) as [|n] eqn:Hn; [done|].
  rewrite length_app, length_drop, length_take. lia.
Qed.

Lemma np_roll_perm {A} (v : list A) (s : Z) : np_roll v s ≡ₚ v.
Proof.
  unfold np_roll. destruct (length v) as [|n]; [done|].
  rewrite (comm (++)). by rewrite take_drop.
Qed.

(** X1.  [shift_vdc] turns the bias vector left by a quarter of its length,
    rounded down: the shift it reports is [-(len / 4)], the vector it
    returns starts at element [len / 4] of the input and wraps around, so it
    has the same length and the same values. *)
Theorem shift_vdc_quarter_turn {A} (vdc_vec : list A) :
  let q := length vdc_vec / 4 in
  (shift_vdc vdc_vec).1 = (- Z.of_nat q)%Z ∧
  (shift_vdc vdc_vec).2 = drop q vdc_vec ++ take q vdc_vec ∧
  length (shift_vdc vdc_vec).2 = length vdc_vec ∧
  (shift_vdc vdc_vec).2 ≡ₚ vdc_vec ∧
  ∀ i, i < length vdc_vec →
       (shift_vdc vdc_vec).2 !! i = vdc_vec !! ((i + q) `mod` length vdc_vec).
Proof.
  intros q. unfold shift_vdc. cbn [fst snd].
  assert (Z.quot (-1 * Z.of_nat (length vdc_vec)) 4 = (- Z.of_nat q)%Z) as Hs.
  { replace (-1 * Z.of_nat (length vdc_vec))%Z
      with (- Z.of_nat (length vdc_vec))%Z by lia.
    rewrite Z.quot_opp_l by lia. rewrite Z.quot_div_nonneg by lia.
    unfold q. by rewrite Nat2Z.inj_div. }
  rewrite Hs. split; [done|].
  assert (np_roll vdc_vec (- Z.of_nat q) = drop q vdc_vec ++ take q vdc_vec)
    as Hroll.
  { destruct (decide (length vdc_vec = 0)) as [H0|Hpos].
    - apply nil_length_inv in H0. subst vdc_vec. by destruct q.
    - apply np_roll_left. unfold q.
      apply Nat.Div0.div_lt_upper_bound. lia. }
  split; [done|]. split; [apply np_roll_length|]. split; [apply np_roll_perm|].
  intros i Hi. rewrite Hroll.
  assert (q < length vdc_vec) as Hq
    by (unfold q; apply Nat.Div0.div_lt_upper_bound; lia).
  destruct (decide (i < length vdc_vec - q)) as [Hlt|Hge].
  - rewrite lookup_app_l by (rewrite length_drop; lia).
    rewrite lookup_drop, Nat.mod_small by lia. f_equal. lia.
  - rewrite lookup_app_r by (rewrite length_drop; lia).
    rewrite length_drop, lookup_take_lt by lia. f_equal.
    replace (i + q) with ((i - (length vdc_vec - q)) + 1 * length vdc_vec) by lia.
    rewrite Nat.Div0.mod_add, Nat.mod_small by lia. done.
Qed.

(** X2.  Rolling the bias vector and a response curve of the same length
    by the same shift keeps every response value paired with its bias
    value: the pairs of the rolled vectors are the rolled pairs. *)
Theorem roll_keeps_pairs {A B} (vdc : list A) (curve : list B) (shift : Z) :
  length vdc = length curve →
  zip (np_roll vdc shift) (np_roll curve shift) = np_roll (zip vdc curve) shift.
Proof.
  intros Hlen. unfold np_roll. rewrite length_zip, <- Hlen, Nat.min_id.
  destruct (length vdc) as [|n] eqn:Hn; [done|].
  set (m := Z.to_nat ((- shift) `mod` Z.of_nat (S n))).
  rewrite zip_with_app by (rewrite !length_drop; lia).
  by rewrite zip_with_drop, zip_with_take.
Qed.

(** A bias sweep of eight steps against a loop of eight values. *)
Lemma roll_keeps_pairs_witness :
  zip (np_roll [0; 1; 2; 3; 4; 5; 6; 7]%Z (-2)) (np_roll (seq 10 8) (-2))
  = np_roll (zip [0; 1; 2; 3; 4; 5; 6; 7]%Z (seq 10 8)) (-2).
Proof.
  apply (roll_keeps_pairs [0; 1; 2; 3; 4; 5; 6; 7]%Z (seq 10 8) (-2)).
  reflexivity.
Defined.

(** ** ReshapeEngine: the other round trip, the shortcut and the shapes *)

Lemma order_dc_outside_inverts d n :
  d < n →
  take_axes (order_dc_outside_nd d n) (order_dc_offset_reverse d n) = seq 0 n.
Proof.
  intros Hd.
  pose proof (order_dc_reverse_perm d n Hd) as Hq.
  pose proof (order_dc_outside_perm d n Hd) as Hp.
  rewrite <- (argsort_inverse (order_dc_outside_nd d n)
                (order_dc_offset_reverse d n) n) at 1.
  - by apply take_axes_argsort.
  - done.
  - by apply perm_range_length.
  - by apply order_dc_reverse_inverts.
Qed.

Lemma take_axes_seq a k (l : list nat) :
  a + k ≤ length l → take_axes (seq a k) l = take k (drop a l).
Proof.
  intros Hlen. apply list_eq; intros i. unfold take_axes.
  rewrite list_lookup_fmap.
  destruct (decide (i < k)) as [Hi|Hi].
  - rewrite lookup_seq_lt, lookup_take_lt, lookup_drop by done. cbn.
    destruct (lookup_lt_is_Some_2 l (a + i)) as [x Hx]; [lia|].
    by rewrite (nth_lookup_Some _ _ _ _ Hx), Hx.
  - by rewrite lookup_seq_ge, lookup_take_ge by lia.
Qed.

(** The N-D shape with the bias axis first: the bias steps, the positions,
    then the other spectroscopic axes in their order. *)
Lemma take_axes_dc_outside d npos (spec_dims : list nat) :
  1 ≤ d ≤ length spec_dims →
  take_axes (order_dc_outside_nd d (S (length spec_dims))) (npos :: spec_dims)
  = nth (d - 1) spec_dims 0 :: npos ::
    take (d - 1) spec_dims ++ drop d spec_dims.
Proof.
  intros Hd. unfold order_dc_outside_nd.
  assert (∀ a b l, take_axes (a ++ b) l = take_axes a l ++ take_axes b l)
    as Happ by (intros; apply fmap_app).
  rewrite !Happ, !take_axes_seq by (cbn [length]; lia).
  destruct d as [|d]; [lia|].
  replace (S d + 1) with (S (S d)) by lia.
  cbn [take_axes fmap list_fmap nth app drop take].
  replace (S d - 1) with d by lia. f_equal. f_equal. f_equal.
  apply take_ge. rewrite length_drop. lia.
Qed.

Lemma dc_axis_positive d (spec_dims : list nat) :
  1 ≤ d ≤ length spec_dims → Forall (λ c, 0 < c) spec_dims →
  0 < nth (d - 1) spec_dims 0.
Proof.
  intros Hd Hpos.
  destruct (lookup_lt_is_Some_2 spec_dims (d - 1)) as [c Hc]; [lia|].
  rewrite (nth_lookup_Some _ _ _ _ Hc).
  by apply (Forall_lookup_1 _ _ _ _ Hpos Hc).
Qed.

(** X3.  The round trip in the order the two phases use it.  Loops laid
    out bias-first, brought to the storage layout by
    [_reshape_projected_loops_for_h5] and read again through
    [_reshape_sho_matrix], come back as they were, with the same reverse
    order and N-D shape: the fit phase sees the projected loops exactly as
    the guess phase had them. *)
Theorem reshape_round_trip_back {A} (loops_2d : ndarray A) npos spec_dims d :
  1 ≤ d ≤ length spec_dims →
  Forall (λ c, 0 < c) spec_dims →
  let ndim := S (length spec_dims) in
  let nd_shape := take_axes (order_dc_outside_nd d ndim) (npos :: spec_dims) in
  length (data loops_2d) = np_prod nd_shape →
  shape loops_2d
    = [nth 0 nd_shape 0; length (data loops_2d) / nth 0 nd_shape 0] →
  ∃ raw,
    _reshape_projected_loops_for_h5 loops_2d
      (order_dc_offset_reverse d ndim) nd_shape = Ok ([], Some raw) ∧
    shape raw = [npos; np_prod spec_dims] ∧
    _reshape_sho_matrix spec_dims d raw
      = Ok ([], Some (loops_2d, order_dc_offset_reverse d ndim, nd_shape)).
Proof.
  intros Hd Hpos ndim nd_shape Hlen Hshape.
  assert (d < ndim) as Hdn by (unfold ndim; lia).
  pose proof (order_dc_outside_perm d ndim Hdn) as Hp.
  pose proof (order_dc_reverse_perm d ndim Hdn) as Hq.
  assert (length nd_shape = ndim) as Hnd.
  { unfold nd_shape. rewrite take_axes_length. by apply perm_range_length. }
  assert (nth 0 nd_shape 0 = nth (d - 1) spec_dims 0) as Hlead.
  { unfold nd_shape, ndim. by rewrite take_axes_dc_outside. }
  pose proof (dc_axis_positive d spec_dims Hd Hpos) as Hdc.
  set (b := mk_ndarray nd_shape (data loops_2d)).
  assert (wf b) as Hwfb by done.
  destruct (np_transpose_inverse b (order_dc_offset_reverse d ndim)
              (order_dc_outside_nd d ndim) Hwfb)
    as (a & Ht1 & Hsa & Hwfa & Ht2).
  { cbn [b shape]. by rewrite Hnd. }
  { cbn [b shape]. by rewrite Hnd. }
  { cbn [b shape]. rewrite Hnd. by apply order_dc_outside_inverts. }
  assert (shape a = npos :: spec_dims) as Hsa'.
  { rewrite Hsa. cbn [b shape]. unfold nd_shape. rewrite take_axes_compose.
    - rewrite order_dc_reverse_inverts by done. apply take_axes_id.
    - rewrite (perm_range_length _ _ Hp). by apply perm_range_Forall. }
  assert (length (data a) = npos * np_prod spec_dims) as Hla.
  { rewrite Hwfa, Hsa'. done. }
  exists (mk_ndarray [npos; np_prod spec_dims] (data a)).
  split; [|split; [done|]].
  - unfold _reshape_projected_loops_for_h5, np_reshape.
    rewrite decide_True by done. cbn [mbind result_bind]. fold b.
    rewrite Ht1. cbn [mbind result_bind].
    unfold reshape_from_Ndims, np_reshape. rewrite Hsa'.
    rewrite decide_True by (rewrite !np_prod_cons; change (np_prod []) with 1; lia).
    done.
  - unfold _reshape_sho_matrix, reshape_to_Ndims, np_reshape. cbn [shape data].
    rewrite decide_True by (rewrite np_prod_cons; lia). cbn [negb shape length].
    assert (mk_ndarray (npos :: spec_dims) (data a) = a) as ->.
    { clear -Hsa'. destruct a as [sa la]. cbn [shape data] in *. by subst sa. }
    fold ndim. rewrite Ht2. cbn [mbind result_bind].
    unfold np_reshape_infer. cbn [b shape data]. rewrite Hlead.
    rewrite decide_False by lia.
    rewrite decide_True.
    + repeat f_equal. destruct loops_2d as [s l]. cbn [shape data] in *.
      subst s. by rewrite Hlead.
    + rewrite Hlen.
      destruct nd_shape as [|c rest]; [cbn in Hnd; lia|]. cbn in Hlead.
      subst c. rewrite np_prod_cons, Nat.mul_comm. apply Nat.Div0.mod_mul.
Qed.

(** Loops of three bias steps for two pixels and two cycles. *)
Lemma reshape_round_trip_back_witness :
  ∃ raw,
    _reshape_projected_loops_for_h5 (mk_ndarray [3; 4] (seq 0 12))
      (order_dc_offset_reverse 2 3)
      (take_axes (order_dc_outside_nd 2 3) [2; 2; 3]) = Ok ([], Some raw) ∧
    shape raw = [2; np_prod [2; 3]] ∧
    _reshape_sho_matrix [2; 3] 2 raw
      = Ok ([], Some (mk_ndarray [3; 4] (seq 0 12),
                      order_dc_offset_reverse 2 3,
                      take_axes (order_dc_outside_nd 2 3) [2; 2; 3])).
Proof.
  apply (reshape_round_trip_back (mk_ndarray [3; 4] (seq 0 12)) 2 [2; 3] 2).
  - simpl; lia.
  - repeat constructor.
  - reflexivity.
  - reflexivity.
Defined.



Lemma np_prod_app (l1 l2 : list nat) :
  np_prod (l1 ++ l2) = np_prod l1 * np_prod l2.
Proof.
  induction l1 as [|c l1 IH]; cbn [app]; [cbn; lia|].
  rewrite !np_prod_cons, IH. lia.
Qed.

Lemma np_prod_without_axis (spec_dims : list nat) d :
  1 ≤ d ≤ length spec_dims →
  np_prod spec_dims
  = nth (d - 1) spec_dims 0
    * np_prod (take (d - 1) spec_dims ++ drop d spec_dims).
Proof.
  intros Hd.
  destruct (lookup_lt_is_Some_2 spec_dims (d - 1)) as [c Hc]; [lia|].
  rewrite (nth_lookup_Some _ _ _ _ Hc).
  rewrite <- (take_drop_middle spec_dims (d - 1) c Hc) at 1.
  replace (S (d - 1)) with d by lia.
  rewrite !np_prod_app, np_prod_cons. lia.
Qed.

(** X5.  What [_reshape_sho_matrix] returns for a chunk that fits the axis
    model: the N-D shape lists the bias steps, then the positions, then the
    other spectroscopic axes in their order; the loops are a 2-D array with
    one row per bias step and one column per combination of a position with
    the other axes; and no element is added or lost. *)
Theorem reshape_sho_matrix_shapes {A} (raw : ndarray A) npos ncols spec_dims d :
  shape raw = [npos; ncols] →
  wf raw →
  np_prod spec_dims = ncols →
  Forall (λ c, 0 < c) spec_dims →
  1 ≤ d ≤ length spec_dims →
  let ndc := nth (d - 1) spec_dims 0 in
  let others := take (d - 1) spec_dims ++ drop d spec_dims in
  ∃ loops_2d order_reverse,
    _reshape_sho_matrix spec_dims d raw
      = Ok ([], Some (loops_2d, order_reverse, ndc :: npos :: others)) ∧
    shape loops_2d = [ndc; npos * np_prod others] ∧
    length (data loops_2d) = length (data raw) ∧
    wf loops_2d.
Proof.
  intros Hshape Hwf Hcols Hpos Hd ndc others.
  set (n := S (length spec_dims)).
  set (fit_nd := mk_ndarray (npos :: spec_dims) (data raw)).
  assert (length (data raw) = npos * np_prod spec_dims) as Hlen.
  { rewrite Hwf, Hshape, Hcols. cbn. lia. }
  assert (wf fit_nd) as Hwf_nd by (unfold wf, fit_nd; cbn [shape data]; by rewrite np_prod_cons).
  destruct (np_transpose_spec fit_nd (order_dc_outside_nd d n) Hwf_nd)
    as (b & Hb & Hsb & Hwfb & _).
  { apply order_dc_outside_perm. unfold n. cbn. lia. }
  cbn [fit_nd shape] in Hsb. unfold n in Hsb.
  rewrite take_axes_dc_outside in Hsb by done. fold ndc others in Hsb.
  pose proof (dc_axis_positive d spec_dims Hd Hpos) as Hdc. fold ndc in Hdc.
  pose proof (np_prod_without_axis spec_dims d Hd) as Hprod.
  fold ndc others in Hprod.
  assert (length (data b) = ndc * (npos * np_prod others)) as Hlb.
  { rewrite Hwfb, Hsb. by rewrite !np_prod_cons. }
  exists (mk_ndarray [ndc; npos * np_prod others] (data b)),
         (order_dc_offset_reverse d n).
  split; [|split; [done|split]].
  - unfold _reshape_sho_matrix, reshape_to_Ndims, np_reshape. rewrite Hshape.
    rewrite decide_True by (rewrite np_prod_cons; lia).
    cbn [negb]. fold fit_nd. change (length (shape fit_nd)) with n.
    rewrite Hb. cbn [mbind result_bind].
    unfold np_reshape_infer. rewrite Hsb. cbn [nth].
    rewrite decide_False by lia.
    rewrite Hlb, decide_True by (rewrite Nat.mul_comm; apply Nat.Div0.mod_mul).
    cbn [mbind result_bind].
    rewrite (Nat.mul_comm ndc), Nat.div_mul by lia. done.
  - cbn [data]. rewrite Hlb, Hlen, Hprod. lia.
  - unfold wf. cbn [shape data]. rewrite Hlb. cbn. lia.
Qed.

(** Two pixels, axes of cardinalities 2 and 3, the bias axis last. *)
Lemma reshape_sho_matrix_shapes_witness :
  ∃ loops_2d order_reverse,
    _reshape_sho_matrix [2; 3] 2 (mk_ndarray [2; 6] (seq 0 12))
      = Ok ([], Some (loops_2d, order_reverse, [3; 2; 2])) ∧
    shape loops_2d = [3; 2 * np_prod [2]] ∧
    length (data loops_2d) = 12 ∧
    wf loops_2d.
Proof.
  apply (reshape_sho_matrix_shapes (mk_ndarray [2; 6] (seq 0 12)) 2 6 [2; 3] 2).
  - reflexivity.
  - reflexivity.
  - reflexivity.
  - repeat constructor.
  - simpl; lia.
Defined.

(** ** [_reshape_results_for_h5] *)

Section ReshapeResultsFacts.
Context {V S : Type} `{FloatOps V} `{FitServices V S}.

(** X6.  [_reshape_results_for_h5], given the N-D shape returned with the
    loops and a vector with one record per loop, succeeds without a
    warning and only regroups the records, in the order they have: one row
    per position when the metrics table has axes besides the outer cycle,
    a single column otherwise.  With such axes, a vector of any other
    length is refused. *)
Theorem reshape_results_keeps_order (m : BELoopModel V S)
    (raw_results : ndarray (loop_fit32 V)) (ndc npos : nat) (others : list nat) :
  length (data raw_results) = npos * np_prod others →
  (∃ out,
     _reshape_results_for_h5 m raw_results (ndc :: npos :: others)
       = Ok ([], Some out) ∧
     data out = data raw_results ∧
     shape out = if decide (n_met_all_but_forc m = 0)
                 then [npos * np_prod others; 1]
                 else [npos; np_prod others]) ∧
  ∀ other : ndarray (loop_fit32 V),
    n_met_all_but_forc m ≠ 0 →
    length (data other) ≠ npos * np_prod others →
    _reshape_results_for_h5 m other (ndc :: npos :: others) = Raise ValueError.
Proof.
  intros Hlen. split.
  - unfold _reshape_results_for_h5.
    destruct (decide (n_met_all_but_forc m = 0)) as [Hz|Hnz].
    + unfold np_reshape. rewrite decide_True by (cbn; lia).
      cbn [mbind result_bind]. unfold reshape_from_Ndims, np_reshape.
      cbn [shape data]. rewrite decide_True by (cbn; lia).
      eexists. split; [done|]. cbn [data shape]. split; [done|].
      by rewrite Hlen.
    + unfold np_reshape. cbn [tail].
      rewrite decide_True by (by rewrite np_prod_cons).
      cbn [mbind result_bind]. unfold reshape_from_Ndims, np_reshape.
      cbn [shape data]. rewrite decide_True by (cbn; lia).
      eexists. by split.
  - intros other Hnz Hne. unfold _reshape_results_for_h5.
    rewrite decide_False by done. unfold np_reshape. cbn [tail].
    by rewrite decide_False by (by rewrite np_prod_cons).
Qed.

End ReshapeResultsFacts.

(** Four guess records for two pixels and two cycles. *)
Lemma reshape_results_keeps_order_witness :
  let raw := mk_ndarray [4] (const_record <$> [1; 2; 3; 4]%Z) in
  (∃ out,
     _reshape_results_for_h5 two_forc_model raw [3; 2; 2] = Ok ([], Some out) ∧
     data out = data raw ∧
     shape out = if decide (n_met_all_but_forc two_forc_model = 0)
                 then [2 * np_prod [2]; 1]
                 else [2; np_prod [2]]) ∧
  ∀ other : ndarray (loop_fit32 Z),
    n_met_all_but_forc two_forc_model ≠ 0 →
    length (data other) ≠ 2 * np_prod [2] →
    _reshape_results_for_h5 two_forc_model other [3; 2; 2] = Raise ValueError.
Proof.
  intros raw.
  apply (reshape_results_keeps_order (V := Z) (S := Z) two_forc_model raw 3 2 [2]).
  reflexivity.
Defined.

(** ** ChunkPlanner: memory limit and cycle slices *)




(** X8.  The column slices of the outer cycles.  When the planner
    succeeds with positive cycle and repeat counts on a table with
    [n_sho_spec_cols] columns, the slice of cycle [f] starts where the slice
    of cycle [f - 1] ends, is [sho_spec_inds_per_forc] columns wide and lies
    inside the table; all slices together end at column
    [sho_spec_inds_per_forc * num_forcs], which, multiplied by the repeat
    count, is still within the table. *)
Theorem forc_slices_tile (max_mem_mb : Z) (t : sho_tables)
    (forcs0 repeats0 : Z) (r : chunk_sizes) :
  _get_sho_chunk_sizes max_mem_mb t forcs0 repeats0 = Ok r →
  (0 ≤ n_sho_spec_cols t)%Z →
  (0 < num_forcs r)%Z → (0 < num_forc_repeats r)%Z →
  let per := sho_spec_inds_per_forc r in
  (0 ≤ per)%Z ∧
  (per * num_forcs r * num_forc_repeats r ≤ n_sho_spec_cols t)%Z ∧
  (forc_slice per 0).1 = 0%Z ∧
  ∀ f, (0 ≤ f < num_forcs r)%Z →
       (forc_slice per f).2 = (forc_slice per (f + 1)).1 ∧
       ((forc_slice per f).2 - (forc_slice per f).1 = per)%Z ∧
       (0 ≤ (forc_slice per f).1)%Z ∧
       ((forc_slice per f).2 * num_forc_repeats r ≤ n_sho_spec_cols t)%Z.
Proof.
  intros Hrun Hcols HF HR per.
  assert (per = Z.quot (n_sho_spec_cols t) (num_forcs r * num_forc_repeats r))
    as Hper.
  { unfold _get_sho_chunk_sizes in Hrun.
    destruct (decide (size_per_forc t = 0%Z)).
    { by destruct (decide (max_mem_mb = 0%Z)). }
    cbn [mbind result_bind] in Hrun. unfold int_div2 in Hrun.
    destruct (decide _) as [|_]; [done|].
    cbn [mbind result_bind] in Hrun. injection Hrun as <-. done. }
  rewrite Z.quot_div_nonneg in Hper by lia.
  assert (0 ≤ per)%Z as Hper0 by (rewrite Hper; apply Z.div_pos; lia).
  assert (per * (num_forcs r * num_forc_repeats r) ≤ n_sho_spec_cols t)%Z
    as Hall.
  { rewrite Hper, Z.mul_comm. apply Z.mul_div_le. lia. }
  split; [done|]. split; [lia|]. unfold forc_slice. cbn [fst snd].
  split; [lia|]. intros f Hf. split; [done|]. split; [lia|]. split; [lia|].
  assert (per * (f + 1) ≤ per * num_forcs r)%Z by (apply Z.mul_le_mono_nonneg_l; lia).
  nia.
Qed.

(** The two cycles of [two_forc_tables]: four columns each. *)
Lemma forc_slices_tile_witness :
  let r := {| max_pos := 2; sho_spec_inds_per_forc := 4;
              metrics_spec_inds_per_forc := 1; num_forcs := 2;
              num_forc_repeats := 1 |} in
  let per := sho_spec_inds_per_forc r in
  (0 ≤ per)%Z ∧
  (per * num_forcs r * num_forc_repeats r ≤ n_sho_spec_cols two_forc_tables)%Z ∧
  (forc_slice per 0).1 = 0%Z ∧
  ∀ f, (0 ≤ f < num_forcs r)%Z →
       (forc_slice per f).2 = (forc_slice per (f + 1)).1 ∧
       ((forc_slice per f).2 - (forc_slice per f).1 = per)%Z ∧
       (0 ≤ (forc_slice per f).1)%Z ∧
       ((forc_slice per f).2 * num_forc_repeats r
        ≤ n_sho_spec_cols two_forc_tables)%Z.
Proof.
  intros r.
  apply (forc_slices_tile 512 two_forc_tables 1 1 r).
  - reflexivity.
  - simpl; lia.
  - simpl; lia.
  - simpl; lia.
Defined.

(** ** FitDriver: the chunk loop *)

Section ChunkLoopFacts.
Context {V S : Type} `{FloatOps V} `{FitServices V S}.
Implicit Types (m self : BELoopModel V S).

(** Logging warnings changes the log only. *)
Lemma foldl_add_log_eq (ws : list string) m :
  foldl (λ m s, add_log (Warned s) m) m ws
  = mk_model (_maxCpus m) (_maxMemoryMB m) (_maxDataChunk m) (tables m)
      (spec_dims m) (n_met_all_but_forc m) (dc_offset_of_forc m)
      (_dc_offset_index m) (sizes m) (h5_projected_loops m) (h5_guess m)
      (h5_fit m) (h5_fit_parameters m) (cursor m) (fit m)
      (log m ++ (Warned <$> ws)) (fit_calls m).
Proof.
  revert m. induction ws as [|s ws IH]; intros m.
  - cbn [foldl fmap list_fmap]. rewrite (right_id_L [] (++)). by destruct m.
  - cbn [foldl]. rewrite IH. cbn [add_log _maxCpus _maxMemoryMB _maxDataChunk
      tables spec_dims n_met_all_but_forc dc_offset_of_forc _dc_offset_index
      sizes h5_projected_loops h5_guess h5_fit h5_fit_parameters cursor fit
      log fit_calls fmap list_fmap].
    by rewrite <- (assoc_L (++)).
Qed.

(** The walk of the chunk loop over the cycles that remain. *)
Lemma fit_chunks_walk (fuel : nat) (loops : ndarray V)
    (vdc : list V) (nd : list nat) (strategy : string) m
    (results : list (option (ndarray (loop_fit32 V))))
    (g : ndarray (loop_fit32 V)) (d : ndarray V) :
  h5_guess m = Some g →
  (0 < max_pos (sizes m) ≤ Z.of_nat (nrows (h5_projected_loops m)))%Z →
  chunk_data (cursor m) = Some d →
  _end_pos (cursor m) = max_pos (sizes m) →
  Z.to_nat (num_forcs (sizes m) - 1 - _current_forc (cursor m)) < fuel →
  let f := _current_forc (cursor m) in
  let n := Z.to_nat (num_forcs (sizes m) - 1 - f) in
  let met_slice (k : nat) :=
    forc_slice (metrics_spec_inds_per_forc (sizes m)) (f + 1 + Z.of_nat k) in
  ∃ r, fit_chunks fuel loops vdc nd strategy m results = Some r ∧
    ∀ m' results', r = Ok (m', results') →
      fit_calls m' =
        fit_calls m ++
        mk_call loops (chunk_guess (cursor m)) vdc ::
        ((λ k, mk_call loops
                 ((λ r, removelast (compound_to_scalar r)) <$>
                  data (h5_slice g 0 (max_pos (sizes m))
                          (met_slice k).1 (met_slice k).2))
                 vdc) <$> seq 0 n) ∧
      length results' = length results + Datatypes.S n ∧
      chunk_data (cursor m') = None ∧
      _current_forc (cursor m') = (f + Z.of_nat n)%Z.
Proof.
  intros Hg Hmax Hd Hend Hfuel f n met_slice.
  subst met_slice. cbn beta.
  assert (∃ n0, n0 = n) as [n0 Hn0] by eauto.
  revert fuel m results d Hg Hmax Hd Hend Hfuel f n Hn0.
  induction n0 as [|n0 IH]; intros fuel m results d Hg Hmax Hd Hend Hfuel f n Hn0;
    (destruct fuel as [|fuel]; [lia|]); cbn [fit_chunks]; rewrite Hd.
  - (* the last cycle *)
    destruct (_reformat_results _ _) as [temp|e]; [|by eexists].
    cbn [mbind result_bind].
    destruct (_reshape_results_for_h5 _ _ _) as [[w temp']|e]; [|by eexists].
    cbn [mbind result_bind]. rewrite foldl_add_log_eq.
    unfold _get_guess_chunk.
    cbn [add_fit_call set_cursor cursor sizes h5_projected_loops h5_guess
         _start_pos _end_pos _current_forc _current_sho_spec_slice
         _current_met_spec_slice dc_vec chunk_data chunk_guess
         _maxCpus _maxMemoryMB _maxDataChunk tables spec_dims
         n_met_all_but_forc dc_offset_of_forc _dc_offset_index h5_fit
         h5_fit_parameters fit log fit_calls].
    rewrite Hg, Hend.
    rewrite (decide_False (P := (max_pos (sizes m) < max_pos (sizes m))%Z)) by lia.
    rewrite (decide_False (P := (_current_forc (cursor m) < num_forcs (sizes m) - 1)%Z))
      by (subst n f; lia).
    cbn [mbind result_bind set_cursor cursor chunk_data _start_pos _end_pos
         _current_forc _current_met_spec_slice].
    destruct fuel; cbn [fit_chunks set_cursor cursor chunk_data];
      (eexists; split; [done|]); intros m' results' [= <- <-];
      cbn [fit_calls cursor chunk_data _current_forc set_cursor]; rewrite <- Hn0;
      cbn [seq fmap list_fmap]; rewrite length_app; cbn [length];
      (split; [done|]); (split; [lia|]); (split; [done|]); subst f; lia.
  - (* a cycle followed by others *)
    destruct (_reformat_results _ _) as [temp|e]; [|by eexists].
    cbn [mbind result_bind].
    destruct (_reshape_results_for_h5 _ _ _) as [[w temp']|e]; [|by eexists].
    cbn [mbind result_bind]. rewrite foldl_add_log_eq.
    unfold _get_guess_chunk.
    cbn [add_fit_call set_cursor cursor sizes h5_projected_loops h5_guess
         _start_pos _end_pos _current_forc _current_sho_spec_slice
         _current_met_spec_slice dc_vec chunk_data chunk_guess
         _maxCpus _maxMemoryMB _maxDataChunk tables spec_dims
         n_met_all_but_forc dc_offset_of_forc _dc_offset_index h5_fit
         h5_fit_parameters fit log fit_calls].
    rewrite Hg, Hend.
    rewrite (decide_False (P := (max_pos (sizes m) < max_pos (sizes m))%Z)) by lia.
    rewrite (decide_True (P := (_current_forc (cursor m) < num_forcs (sizes m) - 1)%Z))
      by (subst n f; lia).
    cbn [mbind result_bind set_cursor cursor chunk_data _start_pos _end_pos
         _current_forc _current_met_spec_slice].
    replace (Z.min (Z.of_nat (nrows (h5_projected_loops m))) (0 + max_pos (sizes m)))
      with (max_pos (sizes m)) by lia.
    match goal with |- context [fit_chunks fuel loops vdc nd strategy ?m1 ?r1] =>
      destruct (IH fuel m1 r1
                  (h5_slice (h5_projected_loops m) 0 (max_pos (sizes m))
                     (forc_slice (sho_spec_inds_per_forc (sizes m))
                        (_current_forc (cursor m) + 1)).1
                     (forc_slice (sho_spec_inds_per_forc (sizes m))
                        (_current_forc (cursor m) + 1)).2))
        as (r & Hr & Hok)
    end.
    + done.
    + done.
    + done.
    + done.
    + cbn [cursor sizes _current_forc set_cursor]. subst n f. lia.
    + cbn [cursor sizes _current_forc set_cursor]. subst n f. lia.
    + exists r. split; [exact Hr|]. intros m' results' Hm'.
      destruct (Hok m' results' Hm') as (Hcalls & Hlen & Hnone & Hforc).
      cbn [cursor sizes _current_forc fit_calls chunk_guess set_cursor
           _current_met_spec_slice] in Hcalls, Hlen, Hnone, Hforc.
      rewrite <- Hn0.
      replace (Z.to_nat (num_forcs (sizes m) - 1 - (_current_forc (cursor m) + 1)))
        with n0 in Hcalls, Hforc by (subst n f; lia).
      split; [|split; [|split; [done|]]].
      * rewrite Hcalls, <- (assoc_L (++)). cbn [app]. f_equal. f_equal.
        cbn [seq fmap list_fmap]. f_equal.
        { do 2 f_equal; f_equal; subst f; cbn [forc_slice fst snd]; f_equal; lia. }
        rewrite <- fmap_S_seq, <- list_fmap_compose. apply list_fmap_ext.
        intros i k _. cbn [compose]. subst f.
        by replace (_current_forc (cursor m) + 1 + 1 + Z.of_nat k)%Z
          with (_current_forc (cursor m) + 1 + Z.of_nat (Datatypes.S k))%Z by lia.
      * rewrite Hlen, length_app. cbn [length]. lia.
      * subst f. lia.
Qed.

(** X9.  The chunk loop of [do_fit], entered on the first chunk of cycle
    [f] with a chunk size [max_pos] that is positive and not larger than
    the table, ends after one round per remaining cycle.  When no round
    raises, the solver was called once per cycle from [f] to the last one;
    the guess of each later call holds the guess records of rows
    [0 .. max_pos - 1] of that cycle's column slice, so rows from [max_pos]
    on are given to no call. *)
Theorem fit_chunks_one_call_per_forc (fuel : nat) (loops : ndarray V)
    (vdc : list V) (nd : list nat) (strategy : string) m
    (results : list (option (ndarray (loop_fit32 V))))
    (g : ndarray (loop_fit32 V)) (d : ndarray V) :
  h5_guess m = Some g →
  (0 < max_pos (sizes m) ≤ Z.of_nat (nrows (h5_projected_loops m)))%Z →
  chunk_data (cursor m) = Some d →
  _end_pos (cursor m) = max_pos (sizes m) →
  Z.to_nat (num_forcs (sizes m) - 1 - _current_forc (cursor m)) < fuel →
  let f := _current_forc (cursor m) in
  let n := Z.to_nat (num_forcs (sizes m) - 1 - f) in
  let met_slice (k : nat) :=
    forc_slice (metrics_spec_inds_per_forc (sizes m)) (f + 1 + Z.of_nat k) in
  ∃ r, fit_chunks fuel loops vdc nd strategy m results = Some r ∧
    ∀ m' results', r = Ok (m', results') →
      fit_calls m' =
        fit_calls m ++
        mk_call loops (chunk_guess (cursor m)) vdc ::
        ((λ k, mk_call loops
                 ((λ r, removelast (compound_to_scalar r)) <$>
                  data (h5_slice g 0 (max_pos (sizes m))
                          (met_slice k).1 (met_slice k).2))
                 vdc) <$> seq 0 n) ∧
      length results' = length results + Datatypes.S n ∧
      chunk_data (cursor m') = None ∧
      _current_forc (cursor m') = (f + Z.of_nat n)%Z.
Proof. apply fit_chunks_walk. Qed.

(** C10.  The first read of the fit phase and what the solver is given.
    [do_fit] sets [_start_pos = 0] and calls [_get_guess_chunk]; on a model
    with a guess table and a chunk size [max_pos] that is positive and not
    larger than the table, the call succeeds and leaves as guess one row
    per guess record stored in rows [0 .. max_pos - 1] of the current
    cycle's columns, each row being the nine coefficients [a_0 .. b_3] of
    the record: the tenth field, the R2 criterion, is dropped.  The chunk
    loop then ends, and when no round raises the solver was called once per
    cycle, with exactly these rows for the current cycle and with the
    nine-coefficient rows of the stored records of each later cycle. *)
Theorem get_guess_chunk_strips_r2 (fuel : nat) (loops : ndarray V)
    (vdc : list V) (nd : list nat) (strategy : string) m
    (results : list (option (ndarray (loop_fit32 V))))
    (h5g : ndarray (loop_fit32 V)) :
  h5_guess m = Some h5g →
  _start_pos (cursor m) = 0%Z →
  (0 < max_pos (sizes m) ≤ Z.of_nat (nrows (h5_projected_loops m)))%Z →
  Z.to_nat (num_forcs (sizes m) - 1 - _current_forc (cursor m)) < fuel →
  let f := _current_forc (cursor m) in
  let n := Z.to_nat (num_forcs (sizes m) - 1 - f) in
  let nine (r : loop_fit32 V) :=
    [a_0 r; a_1 r; a_2 r; a_3 r; a_4 r; b_0 r; b_1 r; b_2 r; b_3 r] in
  let stored (cols : Z * Z) :=
    data (h5_slice h5g 0 (max_pos (sizes m)) cols.1 cols.2) in
  let later (k : nat) :=
    forc_slice (metrics_spec_inds_per_forc (sizes m)) (f + 1 + Z.of_nat k) in
  ∃ m1,
    _get_guess_chunk m = Ok m1 ∧
    chunk_guess (cursor m1)
      = nine <$> stored (_current_met_spec_slice (cursor m)) ∧
    ∃ r, fit_chunks fuel loops vdc nd strategy m1 results = Some r ∧
      ∀ m' results', r = Ok (m', results') →
        fit_calls m' =
          fit_calls m ++
          mk_call loops (nine <$> stored (_current_met_spec_slice (cursor m))) vdc ::
          ((λ k, mk_call loops (nine <$> stored (later k)) vdc) <$> seq 0 n).
Proof.
  intros Hg Hstart Hmax Hfuel f n nine stored later.
  unfold _get_guess_chunk. rewrite Hg, Hstart.
  rewrite (decide_True (P := (0 < max_pos (sizes m))%Z)) by lia.
  cbn [_start_pos _end_pos _current_met_spec_slice].
  replace (Z.min (Z.of_nat (nrows (h5_projected_loops m))) (0 + max_pos (sizes m)))
    with (max_pos (sizes m)) by lia.
  eexists. split; [reflexivity|]. split; [reflexivity|].
  match goal with |- context [fit_chunks fuel loops vdc nd strategy ?m1 results] =>
    destruct (fit_chunks_walk fuel loops vdc nd strategy m1 results h5g
                (h5_slice (h5_projected_loops m) 0 (max_pos (sizes m))
                   (forc_slice (sho_spec_inds_per_forc (sizes m))
                      (_current_forc (cursor m))).1
                   (forc_slice (sho_spec_inds_per_forc (sizes m))
                      (_current_forc (cursor m))).2))
      as (r & Hr & Hok)
  end.
  - exact Hg.
  - exact Hmax.
  - reflexivity.
  - reflexivity.
  - exact Hfuel.
  - exists r. split; [exact Hr|]. intros m' results' Hm'.
    destruct (Hok m' results' Hm') as (Hcalls & _). exact Hcalls.
Qed.


End ChunkLoopFacts.

(** The loop of the two-cycle model, entered on its first chunk. *)
Lemma fit_chunks_one_call_per_forc_witness :
  let m := two_forc_first_chunk in
  let loops := mk_ndarray [2; 4] [2; 3; 4; 1; 6; 7; 8; 5]%Z in
  let vdc := [1; 2; 3; 0]%Z in
  let f := _current_forc (cursor m) in
  let n := Z.to_nat (num_forcs (sizes m) - 1 - f) in
  let met_slice (k : nat) :=
    forc_slice (metrics_spec_inds_per_forc (sizes m)) (f + 1 + Z.of_nat k) in
  ∃ r, fit_chunks 5 loops vdc [4; 2] "BE_LOOP" m [] = Some r ∧
    ∀ m' results', r = Ok (m', results') →
      fit_calls m' =
        fit_calls m ++
        mk_call loops (chunk_guess (cursor m)) vdc ::
        ((λ k, mk_call loops
                 ((λ r, removelast (compound_to_scalar r)) <$>
                  data (h5_slice two_forc_guess 0 (max_pos (sizes m))
                          (met_slice k).1 (met_slice k).2))
                 vdc) <$> seq 0 n) ∧
      length results' = length (@nil (option (ndarray (loop_fit32 Z)))) + Datatypes.S n ∧
      chunk_data (cursor m') = None ∧
      _current_forc (cursor m') = (f + Z.of_nat n)%Z.
Proof.
  intros m loops vdc.
  refine (fit_chunks_one_call_per_forc (V := Z) (S := Z) 5 loops vdc [4; 2]
            "BE_LOOP" m [] two_forc_guess
            (mk_ndarray [2; 4] [1; 2; 3; 4; 5; 6; 7; 8]%Z) _ _ _ _ _).
  - reflexivity.
  - unfold m, two_forc_first_chunk, nrows; simpl; lia.
  - reflexivity.
  - reflexivity.
  - unfold m, two_forc_first_chunk; simpl; lia.
Defined.

(** The first read of the two-cycle model: rows 0 and 1 of the guess
    table, whose records hold 1 and 3 in their coefficients and 101 and 103
    as R2 criterion. *)
Lemma get_guess_chunk_strips_r2_witness :
  let m := two_forc_first_chunk in
  let loops := mk_ndarray [2; 4] [2; 3; 4; 1; 6; 7; 8; 5]%Z in
  let vdc := [1; 2; 3; 0]%Z in
  let f := _current_forc (cursor m) in
  let n := Z.to_nat (num_forcs (sizes m) - 1 - f) in
  let nine (r : loop_fit32 Z) :=
    [a_0 r; a_1 r; a_2 r; a_3 r; a_4 r; b_0 r; b_1 r; b_2 r; b_3 r] in
  let stored (cols : Z * Z) :=
    data (h5_slice two_forc_guess 0 (max_pos (sizes m)) cols.1 cols.2) in
  let later (k : nat) :=
    forc_slice (metrics_spec_inds_per_forc (sizes m)) (f + 1 + Z.of_nat k) in
  stored (_current_met_spec_slice (cursor m)) = [const_record 1; const_record 3] ∧
  ∃ m1,
    _get_guess_chunk m = Ok m1 ∧
    chunk_guess (cursor m1)
      = nine <$> stored (_current_met_spec_slice (cursor m)) ∧
    ∃ r, fit_chunks 5 loops vdc [4; 2] "BE_LOOP" m1 [] = Some r ∧
      ∀ m' results', r = Ok (m', results') →
        fit_calls m' =
          fit_calls m ++
          mk_call loops (nine <$> stored (_current_met_spec_slice (cursor m))) vdc ::
          ((λ k, mk_call loops (nine <$> stored (later k)) vdc) <$> seq 0 n).
Proof.
  intros m loops vdc. split; [reflexivity|].
  refine (get_guess_chunk_strips_r2 (V := Z) (S := Z) 5 loops vdc [4; 2]
            "BE_LOOP" m [] two_forc_guess _ _ _ _).
  - reflexivity.
  - reflexivity.
  - unfold m, two_forc_first_chunk, nrows; simpl; lia.
  - unfold m, two_forc_first_chunk; simpl; lia.
Defined.

(** ** FitDriver: unknown solver or objective function *)

Section UnknownSolverFacts.
Context {V S : Type} `{FloatOps V} `{FitServices V S}.
Implicit Types (m self : BELoopModel V S).

(** [_get_guess_chunk] moves the cursor and nothing else. *)
Lemma get_guess_chunk_cursor m m' :
  _get_guess_chunk m = Ok m' → ∃ c, m' = set_cursor c m.
Proof.
  unfold _get_guess_chunk. destruct (h5_guess m); [|done].
  intros [= <-]. by eexists.
Qed.

(** X10.  [do_fit] with a solver or an objective function it does not
    know.  Whatever the number of rounds allowed to the chunk loop, the
    call gives the same result, and when it raises nothing: no solver was
    called and [fit] is unchanged, but the guess group was taken over and a
    zero-filled Fit table shaped like the guess was already created.  With
    one name unknown the matching warning is issued and [None] returned;
    with both unknown no warning is issued at all and the zero-filled Fit
    table is returned, the switching parameters having been computed from
    it when they were asked for. *)
Theorem do_fit_unknown_solver (fuel : nat) (processors max_mem : option Z)
    (legit_solver legit_obj_func : bool) (strategy : string)
    (get_loop_parameters : bool) (h5_guess_arg : option (guess_group V))
    self self' ret :
  legit_solver && legit_obj_func = false →
  do_fit fuel processors max_mem legit_solver legit_obj_func strategy
    get_loop_parameters h5_guess_arg self = Some (Ok (self', ret)) →
  (∀ fuel', do_fit fuel' processors max_mem legit_solver legit_obj_func
              strategy get_loop_parameters h5_guess_arg self
            = Some (Ok (self', ret))) ∧
  fit_calls self' = fit_calls self ∧
  fit self' = fit self ∧
  ∀ g, match h5_guess_arg with
       | Some gg => Some (grp_guess gg)
       | None => h5_guess self
       end = Some g →
    h5_guess self' = Some g ∧
    h5_fit self' =
      Some (mk_ndarray (shape g) (replicate (length (data g)) zero_record)) ∧
    match legit_solver, legit_obj_func with
    | false, true =>
        ret = None ∧ log self' = log self ++ [Warned warn_no_solver] ∧
        h5_fit_parameters self' = h5_fit_parameters self
    | true, false =>
        ret = None ∧ log self' = log self ++ [Warned warn_no_obj_func] ∧
        h5_fit_parameters self' = h5_fit_parameters self
    | _, _ =>
        ret = h5_fit self' ∧ log self' = log self ∧
        (get_loop_parameters = true → is_Some (h5_fit_parameters self'))
    end.
Proof.
  intros Hleg Hrun. unfold do_fit in *.
  destruct max_mem as [mm|];
    [destruct (decide (_maxCpus self = 0%Z)) as [|_]; [done|]|].
  all: destruct h5_guess_arg as [gg|]; [|destruct (h5_guess self) as [g0|] eqn:Hg0].
  all: cbn [h5_guess set_maxDataChunk] in Hrun |- *.
  all: try rewrite Hg0 in Hrun |- *.
  all: try (injection Hrun as <- <-; split; [done|]; split; [done|]; split; [done|];
            intros g [=]).
  all: match type of Hrun with
       | match ?p with _ => _ end = _ =>
           destruct p as [[[[s1 l2] vs] ndsh]|e] eqn:Hprep; [|done]
       end.
  all: match type of Hprep with
       | mbind _ ?p = _ => destruct p as [sz|e]; [|done]
       end; cbn [mbind result_bind] in Hprep.
  all: match type of Hprep with
       | mbind _ ?p = _ => destruct p as [s2|e] eqn:Hgc; [|done]
       end; cbn [mbind result_bind] in Hprep.
  all: apply get_guess_chunk_cursor in Hgc as [c ->].
  all: match type of Hprep with
       | mbind _ (match chunk_data (cursor ?s) with _ => _ end) = _ =>
           set (s3 := s) in *
       end.
  all: assert (s1 = s3) as -> by (clearbody s3; clear -Hprep;
       destruct (chunk_data (cursor s3)) as [d|]; try done;
       cbn [mbind result_bind] in Hprep;
       destruct (decide _) as [Hone|Hmany];
       (destruct (_reshape_sho_matrix _ _ _) as [[w [[[t o] nsh]|]]|]
        || destruct (np_transpose2 d) as [t|]);
       try done; cbn [mbind result_bind] in Hprep;
       destruct (shift_vdc _) as [si vd];
       destruct (np_transpose2 _); try done;
       cbn [mbind result_bind] in Hprep; congruence).
  all: clear Hprep.
  all: destruct legit_solver, legit_obj_func; try discriminate Hleg.
  all: cbn [andb] in Hrun |- *.
  all: (split; [intros _; exact Hrun|]).
  all: try (destruct get_loop_parameters;
            [destruct (h5_fit s3) as [h5f|] eqn:Hfit3; try done;
             destruct (switching_table h5f default_nuc_threshold) as [p|];
             try done; cbn [mbind result_bind] in Hrun|]).
  all: injection Hrun as <- <-.
  all: try revert Hfit3.
  all: subst s3; unfold _create_fit_dataset, _set_guess;
       cbn [h5_guess set_guess_group set_maxDataChunk]; rewrite ?Hg0.
  all: cbn [set_cursor set_sizes set_h5_fit set_h5_fit_parameters add_log
            set_guess_group set_maxDataChunk
            _maxCpus _maxMemoryMB _maxDataChunk tables spec_dims
            n_met_all_but_forc dc_offset_of_forc _dc_offset_index sizes
            h5_projected_loops h5_guess h5_fit h5_fit_parameters cursor fit
            log fit_calls].
  all: try intros _.
  all: (split; [done|]); (split; [done|]); intros g [= <-].
  all: repeat split; try done.
Qed.

End UnknownSolverFacts.

(** The two-cycle model fitted with a solver name that does not exist. *)
Lemma do_fit_unknown_solver_witness :
  ∃ self' ret,
    do_fit 0 None None false true "BE_LOOP" true None two_forc_model
      = Some (Ok (self', ret)) ∧
    (∀ fuel', do_fit fuel' None None false true "BE_LOOP" true None
                two_forc_model = Some (Ok (self', ret))) ∧
    fit_calls self' = fit_calls two_forc_model ∧
    fit self' = fit two_forc_model ∧
    ∀ g, h5_guess two_forc_model = Some g →
      h5_guess self' = Some g ∧
      h5_fit self' =
        Some (mk_ndarray (shape g) (replicate (length (data g)) zero_record)) ∧
      ret = None ∧
      log self' = log two_forc_model ++ [Warned warn_no_solver] ∧
      h5_fit_parameters self' = h5_fit_parameters two_forc_model.
Proof.
  eexists _, _. split; [vm_compute; reflexivity|].
  apply (do_fit_unknown_solver (V := Z) (S := Z) 0 None None false true
           "BE_LOOP" true None two_forc_model).
  - reflexivity.
  - vm_compute; reflexivity.
Defined.

(** ** Result records of a fit *)

Section ReformatFacts.
Context {V : Type} `{FloatOps V}.

Lemma realToCompound_fields (row : list V) :
  length row = 10 →
  ∃ rec, realToCompound row = Ok rec ∧ compound_to_scalar rec = f32 <$> row.
Proof.
  intros Hlen. do 10 (destruct row as [|? row]; [done|]).
  destruct row; [|done]. by eexists.
Qed.

(** X11.  [_reformat_results] on a list of solver results that is not
    empty and in which every result holds ten numbers, coefficients and
    residuals together: with the strategy "BE_LOOP" it gives a 1-D table
    with one record per result, in order, whose ten fields are the
    coefficients followed by the residuals as float32 (so the field named
    R2 Criterion holds the last of these numbers as the solver gave it);
    with any other strategy it raises [UnboundLocalError]. *)
Theorem reformat_results_records (results : list (OptimizeResult V)) :
  results ≠ [] →
  Forall (λ r, length (opt_x r ++ opt_fun r) = 10) results →
  (∃ recs, _reformat_results results "BE_LOOP"
           = Ok (mk_ndarray [length results] recs) ∧
           compound_to_scalar <$> recs
           = (λ r, f32 <$> (opt_x r ++ opt_fun r)) <$> results) ∧
  ∀ strategy, strategy ≠ "BE_LOOP"%string →
              _reformat_results results strategy = Raise UnboundLocalError.
Proof.
  intros _ Hten. split.
  - unfold _reformat_results. rewrite decide_True by done.
    assert (∃ recs,
              mapM (λ r, realToCompound (opt_x r ++ opt_fun r)) results = Ok recs ∧
              length recs = length results ∧
              compound_to_scalar <$> recs
              = (λ r, f32 <$> (opt_x r ++ opt_fun r)) <$> results)
      as (recs & -> & Hlen & Hrecs).
    { induction Hten as [|r rs Hr _ (recs & IH & Hlen & Hrecs)].
      - by exists [].
      - destruct (realToCompound_fields _ Hr) as (rec & Hrec & Hfields).
        exists (rec :: recs). cbn [mapM]. rewrite Hrec. cbn [mbind result_bind].
        rewrite IH. cbn [mbind result_bind mret result_ret length fmap list_fmap].
        by rewrite Hlen, Hfields, Hrecs. }
    cbn [mbind result_bind]. exists recs. by rewrite Hlen.
  - intros strategy Hs. unfold _reformat_results. by rewrite decide_False.
Qed.

End ReformatFacts.

(** Two results of nine coefficients and one residual. *)
Lemma reformat_results_records_witness :
  let results := [mk_opt (replicate 9 1%Z) [7%Z]; mk_opt (replicate 9 2%Z) [8%Z]] in
  (∃ recs, _reformat_results results "BE_LOOP"
           = Ok (mk_ndarray [length results] recs) ∧
           compound_to_scalar <$> recs
           = (λ r, f32 <$> (opt_x r ++ opt_fun r)) <$> results) ∧
  ∀ strategy, strategy ≠ "BE_LOOP"%string →
              _reformat_results results strategy = Raise UnboundLocalError.
Proof.
  intros results.
  apply (reformat_results_records (V := Z) results).
  - discriminate.
  - repeat constructor.
Defined.

(** ** BatchProjector *)

Section BatchProjectorFacts.
Context {V R : Type} `{FloatOps V} `{ProjectServices V R}.

Lemma project_pixel_ok (dc : list V) (sho_mat : ndarray R) pixel
    (P : list (list V)) (A : list (loop_metrics32 V)) row :
  rows_of sho_mat !! pixel = Some row →
  pixel < length P → pixel < length A →
  let pd := projectLoop dc (Amplitude <$> row) (Phase <$> row) in
  length (Projected_Loop pd) = ncols sho_mat →
  2 ≤ length (Rotation_Matrix pd) →
  2 ≤ length (Centroid pd) →
  ∃ a, metrics_of pd = Ok a ∧
       project_pixel dc sho_mat pixel (P, A)
       = Ok (<[pixel := f32 <$> Projected_Loop pd]> P, <[pixel := a]> A).
Proof.
  intros Hrow HP HA pd Hlen Hrot Hcen.
  unfold project_pixel, metrics_of. fold pd.
  destruct (lookup_lt_is_Some_2 A pixel HA) as [a0 Ha0].
  rewrite (py_get_Some _ _ _ Hrow). cbn [mbind result_bind]. fold pd.
  unfold row_store. rewrite decide_True by done.
  rewrite py_set_lt by done. cbn [mbind result_bind].
  rewrite (py_get_Some _ _ _ Ha0). cbn [mbind result_bind].
  destruct (Rotation_Matrix pd) as [|rot [|off rm]]; [cbn in Hrot; lia..|].
  destruct (Centroid pd) as [|cx [|cy cn]]; [cbn in Hcen; lia..|].
  unfold py_get. cbn [lookup list_lookup mbind result_bind].
  rewrite py_set_lt by done. by eexists.
Qed.

Lemma project_pixels_seq (dc : list V) (sho_mat : ndarray R) n :
  ∀ k (P : list (list V)) (A : list (loop_metrics32 V)),
  k + n = nrows sho_mat → length P = nrows sho_mat → length A = nrows sho_mat →
  Forall (λ row,
            let pd := projectLoop dc (Amplitude <$> row) (Phase <$> row) in
            length (Projected_Loop pd) = ncols sho_mat ∧
            2 ≤ length (Rotation_Matrix pd) ∧ 2 ≤ length (Centroid pd))
         (rows_of sho_mat) →
  ∃ P' A', project_pixels dc sho_mat (seq k n) (P, A) = Ok (P', A') ∧
    length P' = nrows sho_mat ∧ length A' = nrows sho_mat ∧
    ∀ i, (i < k → P' !! i = P !! i ∧ A' !! i = A !! i) ∧
         (k ≤ i < k + n →
          ∃ row a, rows_of sho_mat !! i = Some row ∧
            let pd := projectLoop dc (Amplitude <$> row) (Phase <$> row) in
            P' !! i = Some (f32 <$> Projected_Loop pd) ∧
            A' !! i = Some a ∧ metrics_of pd = Ok a).
Proof.
  induction n as [|n IH]; intros k P A Hk HP HA Hrows.
  - exists P, A. split; [done|]. split; [done|]. split; [done|].
    intros i. split; [done|lia].
  - assert (length (rows_of sho_mat) = nrows sho_mat) as Hnr
      by (unfold rows_of; by rewrite length_fmap, length_seq).
    destruct (lookup_lt_is_Some_2 (rows_of sho_mat) k) as [row Hrow]; [lia|].
    pose proof (proj1 (Forall_lookup _ _) Hrows k row Hrow) as (Hl & Hr & Hc).
    destruct (project_pixel_ok dc sho_mat k P A row Hrow) as (a & Ha & Hstep);
      [lia|lia|done|done|done|].
    cbn [seq project_pixels]. rewrite Hstep. cbn [mbind result_bind].
    match goal with |- context [project_pixels _ _ _ (?P1, ?A1)] =>
      destruct (IH (Datatypes.S k) P1 A1) as (P' & A' & Hrun & HP' & HA' & Hi);
        [lia|by rewrite length_insert|by rewrite length_insert|done|]
    end.
    rewrite Hrun. exists P', A'. split; [done|]. split; [done|]. split; [done|].
    intros i. destruct (Hi i) as [Hlow Hhigh]. split.
    + intros Hlt. destruct Hlow as [-> ->]; [lia|].
      rewrite !list_lookup_insert_ne by lia. done.
    + intros Hrange. destruct (decide (i = k)) as [->|Hne].
      * exists row, a. split; [done|]. cbn zeta.
        destruct Hlow as [-> ->]; [lia|].
        rewrite !list_lookup_insert_eq by lia. done.
      * apply Hhigh. lia.
Qed.

Lemma project_loop_batch_rows (dc_offset : list V) (sho_mat : ndarray R) :
  let project (row : list R) :=
    projectLoop dc_offset (Amplitude <$> row) (Phase <$> row) in
  Forall (λ row, length (Projected_Loop (project row)) = ncols sho_mat ∧
                 2 ≤ length (Rotation_Matrix (project row)) ∧
                 2 ≤ length (Centroid (project row)))
         (rows_of sho_mat) →
  ∃ ancillary_mat,
    _project_loop_batch dc_offset sho_mat
    = Ok (of_rows ((λ row, f32 <$> Projected_Loop (project row))
                     <$> rows_of sho_mat) (ncols sho_mat),
          ancillary_mat) ∧
    Forall2 (λ row a, metrics_of (project row) = Ok a)
            (rows_of sho_mat) ancillary_mat.
Proof.
  intros project Hrows. unfold _project_loop_batch.
  assert (length (rows_of sho_mat) = nrows sho_mat) as Hnr
    by (unfold rows_of; by rewrite length_fmap, length_seq).
  destruct (project_pixels_seq dc_offset sho_mat (nrows sho_mat) 0
              (replicate (nrows sho_mat) (replicate (ncols sho_mat) (f32 vzero)))
              (replicate (nrows sho_mat) zero_metrics))
    as (P' & A' & Hrun & HP' & HA' & Hi);
    [done|by rewrite length_replicate..|done|].
  rewrite Hrun. cbn [mbind result_bind]. exists A'. split.
  - do 3 f_equal. apply list_eq. intros i. rewrite list_lookup_fmap.
    destruct (decide (i < nrows sho_mat)) as [Hlt|Hge].
    + destruct (Hi i) as [_ Hhigh].
      destruct Hhigh as (row & a & Hrow & HPi & _); [lia|].
      by rewrite HPi, Hrow.
    + rewrite !lookup_ge_None_2; [done|lia|lia].
  - apply Forall2_same_length_lookup. split; [by rewrite Hnr, HA'|].
    intros i row a Hrow Ha. destruct (Hi i) as [_ Hhigh].
    destruct Hhigh as (row' & a' & Hrow' & _ & Ha' & Hm).
    { apply lookup_lt_Some in Hrow. lia. }
    rewrite Hrow in Hrow'. injection Hrow' as <-.
    rewrite Ha in Ha'. injection Ha' as <-. exact Hm.
Qed.

(** X12.  [_project_loop_batch] projects every pixel by itself.  When the
    projection of each row of the response matrix gives a loop as long as
    the row and at least two entries for the rotation and for the centroid,
    the batch succeeds; row [p] of the projected matrix is the projected
    loop of row [p] of the response matrix as float32, and record [p] of
    the metrics is made of the area, centroid, rotation angle and offset of
    that same projection. *)
Theorem project_loop_batch_per_pixel (dc_offset : list V) (sho_mat : ndarray R) :
  let project (row : list R) :=
    projectLoop dc_offset (Amplitude <$> row) (Phase <$> row) in
  Forall (λ row, length (Projected_Loop (project row)) = ncols sho_mat ∧
                 2 ≤ length (Rotation_Matrix (project row)) ∧
                 2 ≤ length (Centroid (project row)))
         (rows_of sho_mat) →
  ∃ ancillary_mat,
    _project_loop_batch dc_offset sho_mat
    = Ok (of_rows ((λ row, f32 <$> Projected_Loop (project row))
                     <$> rows_of sho_mat) (ncols sho_mat),
          ancillary_mat) ∧
    Forall2 (λ row a, metrics_of (project row) = Ok a)
            (rows_of sho_mat) ancillary_mat.
Proof. apply project_loop_batch_rows. Qed.

End BatchProjectorFacts.

(** The batch of [toy_sho_mat] under the bias vector 0, 1, 2. *)
Lemma project_loop_batch_per_pixel_witness :
  let project (row : list (Z * Z)) :=
    projectLoop [0; 1; 2]%Z (Amplitude <$> row) (Phase <$> row) in
  ∃ ancillary_mat,
    _project_loop_batch [0; 1; 2]%Z toy_sho_mat
    = Ok (of_rows ((λ row, f32 <$> Projected_Loop (project row))
                     <$> rows_of toy_sho_mat) (ncols toy_sho_mat),
          ancillary_mat) ∧
    Forall2 (λ row a, metrics_of (project row) = Ok a)
            (rows_of toy_sho_mat) ancillary_mat.
Proof.
  intros project.
  apply (project_loop_batch_per_pixel (V := Z) (R := Z * Z) [0; 1; 2]%Z toy_sho_mat).
  repeat constructor.
Defined.

(** ** ReshapeEngine: where each entry goes *)

Lemma in_bounds_dc_outside d npos (spec_dims : list nat) p s :
  1 ≤ d ≤ length spec_dims → p < npos → in_bounds spec_dims s →
  in_bounds (nth (d - 1) spec_dims 0 :: npos ::
               take (d - 1) spec_dims ++ drop d spec_dims)
            (nth (d - 1) s 0 :: p :: take (d - 1) s ++ drop d s).
Proof.
  intros Hd Hp Hs.
  pose proof (in_bounds_length _ _ Hs) as Hls.
  rewrite <- (take_axes_dc_outside d npos spec_dims) by done.
  rewrite <- (take_axes_dc_outside d p s) by lia.
  rewrite Hls. apply in_bounds_take_axes.
  - apply (perm_range_Forall _ (S (length spec_dims))).
    apply order_dc_outside_perm. lia.
  - by constructor.
Qed.

Lemma flatten_entries {A} (raw : ndarray A) npos ncols spec_dims d :
  shape raw = [npos; ncols] →
  wf raw →
  np_prod spec_dims = ncols →
  Forall (λ c, 0 < c) spec_dims →
  1 ≤ d ≤ length spec_dims →
  let ndc := nth (d - 1) spec_dims 0 in
  let others := take (d - 1) spec_dims ++ drop d spec_dims in
  ∃ loops_2d,
    _reshape_sho_matrix spec_dims d raw
      = Ok ([], Some (loops_2d,
                      order_dc_offset_reverse d (S (length spec_dims)),
                      ndc :: npos :: others)) ∧
    shape loops_2d = [ndc; npos * np_prod others] ∧
    wf loops_2d ∧
    ∀ p s, p < npos → in_bounds spec_dims s →
      let v := nth (d - 1) s 0 in
      let j := ravel (npos :: others) (p :: take (d - 1) s ++ drop d s) in
      v < ndc ∧ j < npos * np_prod others ∧
      data loops_2d !! (v * (npos * np_prod others) + j)
      = data raw !! (p * ncols + ravel spec_dims s).
Proof.
  intros Hshape Hwf Hcols Hpos Hd ndc others.
  set (n := S (length spec_dims)).
  assert (d < n) as Hdn by (unfold n; lia).
  set (fit_nd := mk_ndarray (npos :: spec_dims) (data raw)).
  assert (length (data raw) = npos * np_prod spec_dims) as Hlen.
  { rewrite Hwf, Hshape, Hcols. cbn. lia. }
  assert (wf fit_nd) as Hwf_nd
    by (unfold wf, fit_nd; cbn [shape data]; by rewrite np_prod_cons).
  pose proof (order_dc_outside_perm d n Hdn) as Hperm.
  pose proof (order_dc_reverse_perm d n Hdn) as Hperm'.
  destruct (np_transpose_spec fit_nd (order_dc_outside_nd d n) Hwf_nd)
    as (b & Hb & Hsb & Hwfb & Hentries); [done|].
  cbn [fit_nd shape data] in Hsb, Hentries. unfold n in Hsb.
  rewrite take_axes_dc_outside in Hsb by done. fold ndc others in Hsb.
  pose proof (dc_axis_positive d spec_dims Hd Hpos) as Hdc. fold ndc in Hdc.
  assert (length (data b) = ndc * (npos * np_prod others)) as Hlb.
  { rewrite Hwfb, Hsb. by rewrite !np_prod_cons. }
  exists (mk_ndarray [ndc; npos * np_prod others] (data b)).
  split; [|split; [done|split]].
  - unfold _reshape_sho_matrix, reshape_to_Ndims, np_reshape. rewrite Hshape.
    rewrite decide_True by (rewrite np_prod_cons; lia).
    cbn [negb]. fold fit_nd. change (length (shape fit_nd)) with n.
    rewrite Hb. cbn [mbind result_bind].
    unfold np_reshape_infer. rewrite Hsb. cbn [nth].
    rewrite decide_False by lia.
    rewrite Hlb, decide_True by (rewrite Nat.mul_comm; apply Nat.Div0.mod_mul).
    cbn [mbind result_bind].
    rewrite (Nat.mul_comm ndc), Nat.div_mul by lia. done.
  - unfold wf. cbn [shape data]. rewrite Hlb. cbn. lia.
  - intros p s Hp Hs v j. cbn [data].
    pose proof (in_bounds_length _ _ Hs) as Hls.
    pose proof (in_bounds_dc_outside d npos spec_dims p s Hd Hp Hs) as Hin.
    fold ndc others v in Hin.
    assert (v < ndc) as Hv by (by inversion Hin).
    assert (j < npos * np_prod others) as Hj.
    { unfold j. rewrite <- np_prod_cons. apply ravel_lt. by inversion Hin. }
    split; [done|]. split; [done|].
    specialize (Hentries (ravel (shape b) (v :: p :: take (d - 1) s ++ drop d s))).
    rewrite Hsb in Hentries.
    rewrite unravel_ravel in Hentries by done.
    rewrite (argsort_inverse (order_dc_offset_reverse d n)
               (order_dc_outside_nd d n) n) in Hentries;
      [|done|by apply perm_range_length|by apply order_dc_outside_inverts].
    assert (v :: p :: take (d - 1) s ++ drop d s
            = take_axes (order_dc_outside_nd d n) (p :: s)) as Hidx.
    { unfold v, n. rewrite <- Hls. by rewrite take_axes_dc_outside by lia. }
    rewrite Hidx in Hentries.
    rewrite take_axes_compose in Hentries
      by (rewrite (perm_range_length _ _ Hperm); by apply perm_range_Forall).
    rewrite order_dc_reverse_inverts in Hentries by done.
    replace n with (length (p :: s)) in Hentries at 3
      by (cbn [length]; unfold n; lia).
    rewrite take_axes_id in Hentries.
    rewrite <- Hidx in Hentries.
    cbn [ravel] in Hentries |- *. rewrite <- Hcols.
    rewrite np_prod_cons in Hentries. apply Hentries.
    rewrite !np_prod_cons. unfold j in Hj. cbn [ravel] in Hj. nia.
Qed.

Lemma unflatten_entries {A} (values_2d : ndarray A) npos spec_dims d :
  1 ≤ d ≤ length spec_dims →
  Forall (λ c, 0 < c) spec_dims →
  let ndc := nth (d - 1) spec_dims 0 in
  let others := take (d - 1) spec_dims ++ drop d spec_dims in
  shape values_2d = [ndc; npos * np_prod others] →
  wf values_2d →
  ∃ out,
    _reshape_projected_loops_for_h5 values_2d
      (order_dc_offset_reverse d (S (length spec_dims)))
      (ndc :: npos :: others) = Ok ([], Some out) ∧
    shape out = [npos; np_prod spec_dims] ∧
    wf out ∧
    ∀ p s, p < npos → in_bounds spec_dims s →
      let v := nth (d - 1) s 0 in
      let j := ravel (npos :: others) (p :: take (d - 1) s ++ drop d s) in
      data out !! (p * np_prod spec_dims + ravel spec_dims s)
      = data values_2d !! (v * (npos * np_prod others) + j).
Proof.
  intros Hd Hpos ndc others Hshape Hwf.
  set (n := S (length spec_dims)).
  assert (d < n) as Hdn by (unfold n; lia).
  pose proof (order_dc_outside_perm d n Hdn) as Hperm.
  pose proof (order_dc_reverse_perm d n Hdn) as Hperm'.
  set (nd_shape := ndc :: npos :: others).
  assert (nd_shape = take_axes (order_dc_outside_nd d n) (npos :: spec_dims))
    as Hnd by (unfold n; by rewrite take_axes_dc_outside).
  assert (length nd_shape = n) as Hln.
  { rewrite Hnd, take_axes_length. by apply perm_range_length. }
  set (b := mk_ndarray nd_shape (data values_2d)).
  assert (wf b) as Hwfb.
  { unfold wf, b, nd_shape. cbn [shape data]. rewrite Hwf, Hshape.
    rewrite !np_prod_cons. cbn. lia. }
  destruct (np_transpose_spec b (order_dc_offset_reverse d n) Hwfb)
    as (a & Ha & Hsa & Hwfa & Hentries).
  { cbn [b shape]. by rewrite Hln. }
  assert (shape a = npos :: spec_dims) as Hsa'.
  { rewrite Hsa. cbn [b shape]. rewrite Hnd, take_axes_compose.
    - rewrite order_dc_reverse_inverts by done.
      replace n with (length (npos :: spec_dims)) by done. apply take_axes_id.
    - rewrite (perm_range_length _ _ Hperm). by apply perm_range_Forall. }
  exists (mk_ndarray [npos; np_prod spec_dims] (data a)).
  split; [|split; [done|split]].
  - unfold _reshape_projected_loops_for_h5, np_reshape.
    rewrite decide_True by (symmetry; exact Hwfb). cbn [mbind result_bind].
    fold b. fold n. rewrite Ha. cbn [mbind result_bind].
    unfold reshape_from_Ndims, np_reshape. rewrite Hsa'.
    rewrite decide_True
      by (rewrite Hwfa, Hsa', !np_prod_cons; change (np_prod []) with 1; lia).
    done.
  - unfold wf. cbn [shape data]. rewrite Hwfa, Hsa'.
    rewrite !np_prod_cons. change (np_prod []) with 1. lia.
  - intros p s Hp Hs v j. cbn [data].
    pose proof (in_bounds_length _ _ Hs) as Hls.
    assert (in_bounds (npos :: spec_dims) (p :: s)) as Hin by (by constructor).
    specialize (Hentries (ravel (shape a) (p :: s))).
    rewrite Hsa' in Hentries. rewrite unravel_ravel in Hentries by done.
    rewrite (argsort_inverse (order_dc_outside_nd d n)
               (order_dc_offset_reverse d n) n) in Hentries;
      [|done|by apply perm_range_length|by apply order_dc_reverse_inverts].
    cbn [b shape data] in Hentries. unfold n in Hentries.
    rewrite <- Hls in Hentries.
    rewrite take_axes_dc_outside in Hentries by lia. fold v in Hentries.
    unfold nd_shape in Hentries. cbn [ravel] in Hentries |- *.
    rewrite np_prod_cons in Hentries. unfold j. cbn [ravel].
    apply Hentries. apply (ravel_lt (npos :: spec_dims) (p :: s) Hin).
Qed.

(** X13.  What [_reshape_sho_matrix] does with each entry of a chunk.  The
    entry of pixel [p] whose spectroscopic multi-index is [s] is found in
    [loops_2d] in the row of its bias step [s[d - 1]] and in the column
    numbered by the pixel and the other indices of [s]: every column of
    [loops_2d] is the bias sweep of one pixel at one setting of the other
    axes, in bias order. *)
Theorem reshape_sho_matrix_entries {A} (raw : ndarray A) npos ncols spec_dims d :
  shape raw = [npos; ncols] →
  wf raw →
  np_prod spec_dims = ncols →
  Forall (λ c, 0 < c) spec_dims →
  1 ≤ d ≤ length spec_dims →
  let ndc := nth (d - 1) spec_dims 0 in
  let others := take (d - 1) spec_dims ++ drop d spec_dims in
  ∃ loops_2d order_reverse nd_shape,
    _reshape_sho_matrix spec_dims d raw
      = Ok ([], Some (loops_2d, order_reverse, nd_shape)) ∧
    shape loops_2d = [ndc; npos * np_prod others] ∧
    ∀ p s, p < npos → in_bounds spec_dims s →
      let v := nth (d - 1) s 0 in
      let j := ravel (npos :: others) (p :: take (d - 1) s ++ drop d s) in
      v < ndc ∧ j < npos * np_prod others ∧
      data loops_2d !! (v * (npos * np_prod others) + j)
      = data raw !! (p * ncols + ravel spec_dims s).
Proof.
  intros Hshape Hwf Hcols Hpos Hd ndc others.
  destruct (flatten_entries raw npos ncols spec_dims d Hshape Hwf Hcols Hpos Hd)
    as (loops_2d & Hrun & Hs & _ & Hentries).
  by eexists loops_2d, _, _.
Qed.

(** A chunk of 2 pixels over the axes [3; 2], the bias axis being the
    first one. *)
Lemma reshape_sho_matrix_entries_witness :
  let raw := mk_ndarray [2; 6] (seq 0 12) in
  let ndc := nth (1 - 1) [3; 2] 0 in
  let others := take (1 - 1) [3; 2] ++ drop 1 [3; 2] in
  ∃ loops_2d order_reverse nd_shape,
    _reshape_sho_matrix [3; 2] 1 raw
      = Ok ([], Some (loops_2d, order_reverse, nd_shape)) ∧
    shape loops_2d = [ndc; 2 * np_prod others] ∧
    ∀ p s, p < 2 → in_bounds [3; 2] s →
      let v := nth (1 - 1) s 0 in
      let j := ravel (2 :: others) (p :: take (1 - 1) s ++ drop 1 s) in
      v < ndc ∧ j < 2 * np_prod others ∧
      data loops_2d !! (v * (2 * np_prod others) + j)
      = data raw !! (p * 6 + ravel [3; 2] s).
Proof.
  intros raw.
  apply (reshape_sho_matrix_entries raw 2 6 [3; 2] 1).
  - reflexivity.
  - reflexivity.
  - reflexivity.
  - repeat constructor.
  - simpl; lia.
Defined.

(** ** Guess phase: projecting the loops of a chunk *)

Lemma np_transpose2_entries {A} (a : ndarray A) r c :
  shape a = [r; c] → wf a →
  ∃ b, np_transpose2 a = Ok b ∧ shape b = [c; r] ∧ wf b ∧
       ∀ i j, i < r → j < c → data b !! (j * r + i) = data a !! (i * c + j).
Proof.
  intros Hs Hwf.
  destruct (np_transpose_spec a [1; 0] Hwf) as (b & Hb & Hsb & Hwfb & Hentries).
  { rewrite Hs. cbn. apply Permutation_swap. }
  rewrite Hs in Hsb, Hentries. cbn [take_axes fmap list_fmap nth] in Hsb.
  exists b. split; [done|]. split; [done|]. split; [done|].
  intros i j Hi Hj.
  assert (in_bounds [c; r] [j; i]) as Hin by (by repeat constructor).
  specialize (Hentries (ravel (shape b) [j; i])). rewrite Hsb in Hentries.
  rewrite unravel_ravel in Hentries by done.
  cbn in Hentries. rewrite !Nat.mul_1_r, !Nat.add_0_r in Hentries.
  apply Hentries. nia.
Qed.

Lemma rows_of_lookup {A} (a : ndarray A) r c i :
  shape a = [r; c] → wf a → i < r →
  ∃ row, rows_of a !! i = Some row ∧ length row = c ∧
         ∀ j, j < c → row !! j = data a !! (i * c + j).
Proof.
  intros Hs Hwf Hi. unfold rows_of, nrows, ncols. rewrite Hs. cbn [nth].
  eexists. split.
  { rewrite list_lookup_fmap, lookup_seq_lt by done. cbn. done. }
  assert (length (data a) = r * c) as Hlen.
  { rewrite Hwf, Hs. cbn. lia. }
  split.
  - rewrite length_take, length_drop. nia.
  - intros j Hj. rewrite lookup_take_lt by done. by rewrite lookup_drop.
Qed.

Lemma concat_lookup_rows {A} (rs : list (list A)) nc i j row :
  Forall (λ row, length row = nc) rs →
  rs !! i = Some row → j < nc →
  concat rs !! (i * nc + j) = row !! j.
Proof.
  intros Hall. revert i. induction Hall as [|r0 rs Hr0 _ IH]; intros i Hi Hj.
  - done.
  - destruct i as [|i]; cbn [concat].
    + injection Hi as ->. rewrite lookup_app_l by lia. done.
    + rewrite lookup_app_r by lia.
      replace (Datatypes.S i * nc + j - length r0) with (i * nc + j) by lia.
      by apply IH.
Qed.

Lemma concat_length_rows {A} (rs : list (list A)) nc :
  Forall (λ row, length row = nc) rs → length (concat rs) = length rs * nc.
Proof.
  induction 1 as [|r0 rs Hr0 _ IH]; [done|].
  cbn [concat length]. rewrite length_app, IH, Hr0. lia.
Qed.

Lemma in_bounds_insert (shp idx : list nat) i v :
  in_bounds shp idx → v < nth i shp 0 → in_bounds shp (<[i := v]> idx).
Proof.
  intros Hin. revert i. induction Hin as [|c x shp idx Hx Hrest IH]; intros i Hv.
  - destruct i; cbn in Hv; lia.
  - destruct i as [|i]; cbn [insert list_insert nth] in *.
    + by constructor.
    + constructor; [done|by apply IH].
Qed.

Section GuessProjectionFacts.
Context {V R : Type} `{FloatOps V} `{ProjectServices V R}.

(** X14.  How [do_guess] projects a chunk with several spectroscopic
    axes: the chunk is flattened to loops, transposed, projected by the
    batch, transposed again and unflattened.  When the projection of a
    sweep of [ndc] bias steps gives a loop of [ndc] values and at least two
    entries for the rotation and for the centroid, these five steps all
    succeed, the table they give has the shape of the chunk, and its entry
    at pixel [p] and spectroscopic multi-index [s] is entry [s[d - 1]] of
    the projected loop (as float32) of the sweep read from the chunk at
    pixel [p] with the other indices of [s] held fixed. *)
Theorem do_guess_projection_in_place (dc_vec : list V) (chunk : ndarray R)
    npos ncol spec_dims d :
  shape chunk = [npos; ncol] →
  wf chunk →
  np_prod spec_dims = ncol →
  Forall (λ c, 0 < c) spec_dims →
  1 ≤ d ≤ length spec_dims →
  let ndc := nth (d - 1) spec_dims 0 in
  let project (sweep : list R) :=
    projectLoop dc_vec (Amplitude <$> sweep) (Phase <$> sweep) in
  (∀ sweep, length sweep = ndc →
            length (Projected_Loop (project sweep)) = ndc ∧
            2 ≤ length (Rotation_Matrix (project sweep)) ∧
            2 ≤ length (Centroid (project sweep))) →
  ∃ loops_2d order_reverse nd_shape sho_mat projected metrics projected_t out,
    _reshape_sho_matrix spec_dims d chunk
      = Ok ([], Some (loops_2d, order_reverse, nd_shape)) ∧
    np_transpose2 loops_2d = Ok sho_mat ∧
    _project_loop_batch dc_vec sho_mat = Ok (projected, metrics) ∧
    np_transpose2 projected = Ok projected_t ∧
    _reshape_projected_loops_for_h5 projected_t order_reverse nd_shape
      = Ok ([], Some out) ∧
    shape out = shape chunk ∧
    length metrics
      = npos * np_prod (take (d - 1) spec_dims ++ drop d spec_dims) ∧
    ∀ p s, p < npos → in_bounds spec_dims s →
      ∃ sweep,
        length sweep = ndc ∧
        (∀ v, v < ndc →
              sweep !! v
              = data chunk !! (p * ncol + ravel spec_dims (<[d - 1 := v]> s))) ∧
        data out !! (p * ncol + ravel spec_dims s)
        = (f32 <$> Projected_Loop (project sweep)) !! nth (d - 1) s 0.
Proof.
  intros Hshape Hwf Hcols Hpos Hd ndc project Hproj.
  set (others := take (d - 1) spec_dims ++ drop d spec_dims).
  set (L := npos * np_prod others).
  pose proof (dc_axis_positive d spec_dims Hd Hpos) as Hdc. fold ndc in Hdc.
  destruct (flatten_entries chunk npos ncol spec_dims d Hshape Hwf Hcols Hpos Hd)
    as (loops_2d & Hflat & Hsl & Hwfl & Hfe).
  fold ndc others L in Hflat, Hsl, Hfe.
  destruct (np_transpose2_entries loops_2d ndc L Hsl Hwfl)
    as (sho_mat & Ht1 & Hss & Hwfs & Hte).
  assert (nrows sho_mat = L) as Hnr by (unfold nrows; by rewrite Hss).
  assert (ncols sho_mat = ndc) as Hnc by (unfold ncols; by rewrite Hss).
  assert (length (rows_of sho_mat) = L) as Hlr.
  { unfold rows_of. by rewrite length_fmap, length_seq. }
  assert (Forall (λ row, length row = ndc) (rows_of sho_mat)) as Hrl.
  { apply Forall_lookup. intros j row Hrow.
    destruct (rows_of_lookup sho_mat L ndc j Hss Hwfs) as (row' & Hrow' & Hl & _).
    { apply lookup_lt_Some in Hrow. lia. }
    congruence. }
  destruct (project_loop_batch_rows dc_vec sho_mat) as (metrics & Hbatch & Hmet).
  { rewrite Hnc. eapply Forall_impl; [exact Hrl|]. intros row Hrow.
    by apply Hproj. }
  rewrite Hnc in Hbatch.
  set (PL := (λ row, f32 <$> Projected_Loop
                       (projectLoop dc_vec (Amplitude <$> row) (Phase <$> row)))
             <$> rows_of sho_mat) in *.
  assert (Forall (λ row, length row = ndc) PL) as HPL.
  { unfold PL. apply Forall_fmap. eapply Forall_impl; [exact Hrl|].
    intros row Hrow. cbn. rewrite length_fmap. by apply Hproj. }
  assert (length PL = L) as HlPL by (unfold PL; by rewrite length_fmap).
  set (projected := of_rows PL ndc) in *.
  assert (shape projected = [L; ndc]) as Hsp
    by (unfold projected, of_rows; cbn [shape]; by rewrite HlPL).
  assert (wf projected) as Hwfp.
  { unfold wf. rewrite Hsp. unfold projected, of_rows. cbn [data].
    rewrite (concat_length_rows PL ndc HPL), HlPL. cbn. lia. }
  destruct (np_transpose2_entries projected L ndc Hsp Hwfp)
    as (projected_t & Ht2 & Hst & Hwft & Hte2).
  destruct (unflatten_entries projected_t npos spec_dims d Hd Hpos Hst Hwft)
    as (out & Hunflat & Hso & Hwfo & Hue).
  fold ndc others L in Hunflat, Hue.
  exists loops_2d, (order_dc_offset_reverse d (Datatypes.S (length spec_dims))),
         (ndc :: npos :: others), sho_mat, projected, metrics, projected_t, out.
  split; [done|]. split; [done|]. split; [done|]. split; [done|].
  split; [done|]. split; [by rewrite Hso, Hshape, Hcols|].
  split; [by rewrite <- (Forall2_length _ _ _ Hmet)|].
  intros p s Hp Hs.
  destruct (Hfe p s Hp Hs) as (Hv & Hj & _).
  set (j := ravel (npos :: others) (p :: take (d - 1) s ++ drop d s)) in *.
  pose proof (in_bounds_length _ _ Hs) as Hls.
  destruct (rows_of_lookup sho_mat L ndc j Hss Hwfs Hj)
    as (sweep & Hsweep & Hlsw & Hsw).
  exists sweep. split; [done|]. split.
  - intros v Hvn. rewrite (Hsw v Hvn), (Hte v j Hvn Hj).
    assert (in_bounds spec_dims (<[d - 1 := v]> s)) as Hs'
      by (by apply in_bounds_insert).
    destruct (Hfe p (<[d - 1 := v]> s) Hp Hs') as (_ & _ & Hentry).
    rewrite <- Hentry. f_equal.
    rewrite (nth_lookup_Some _ _ _ v) by (apply list_lookup_insert_eq; lia).
    rewrite take_insert_ge by lia.
    rewrite drop_insert_lt by lia. done.
  - rewrite <- Hcols, (Hue p s Hp Hs). fold j.
    rewrite (Hte2 j (nth (d - 1) s 0) Hj Hv).
    unfold projected, of_rows. cbn [data].
    apply concat_lookup_rows; [done| |done].
    unfold PL. rewrite list_lookup_fmap, Hsweep. done.
Qed.

End GuessProjectionFacts.

(** A chunk of 2 pixels over the axes [3; 2], the bias axis being the
    first one, projected under the bias vector 0, 1, 2. *)
Lemma do_guess_projection_in_place_witness :
  let chunk : ndarray (Z * Z) :=
    mk_ndarray [2; 6] ((λ i, (Z.of_nat i, Z.of_nat i + 1)%Z) <$> seq 0 12) in
  let dc_vec := [0; 1; 2]%Z in
  let spec_dims := [3; 2] in
  let d := 1 in
  let ndc := nth (d - 1) spec_dims 0 in
  let project (sweep : list (Z * Z)) :=
    projectLoop dc_vec (Amplitude <$> sweep) (Phase <$> sweep) in
  ∃ loops_2d order_reverse nd_shape sho_mat projected metrics projected_t out,
    _reshape_sho_matrix spec_dims d chunk
      = Ok ([], Some (loops_2d, order_reverse, nd_shape)) ∧
    np_transpose2 loops_2d = Ok sho_mat ∧
    _project_loop_batch dc_vec sho_mat = Ok (projected, metrics) ∧
    np_transpose2 projected = Ok projected_t ∧
    _reshape_projected_loops_for_h5 projected_t order_reverse nd_shape
      = Ok ([], Some out) ∧
    shape out = shape chunk ∧
    length metrics
      = 2 * np_prod (take (d - 1) spec_dims ++ drop d spec_dims) ∧
    ∀ p s, p < 2 → in_bounds spec_dims s →
      ∃ sweep,
        length sweep = ndc ∧
        (∀ v, v < ndc →
              sweep !! v
              = data chunk !! (p * 6 + ravel spec_dims (<[d - 1 := v]> s))) ∧
        data out !! (p * 6 + ravel spec_dims s)
        = (f32 <$> Projected_Loop (project sweep)) !! nth (d - 1) s 0.
Proof.
  intros chunk dc_vec spec_dims d.
  apply (do_guess_projection_in_place (V := Z) (R := Z * Z) dc_vec chunk 2 6
           spec_dims d).
  - reflexivity.
  - reflexivity.
  - reflexivity.
  - repeat constructor.
  - simpl; lia.
  - intros sweep Hsweep. simpl in Hsweep.
    destruct sweep as [|x0 [|x1 [|x2 [|x3 sweep]]]]; try discriminate Hsweep.
    simpl. lia.
Defined.
